(** * Calculator: the input, history and mode state machine of [App],
      and the fallback contract of [solveMathProblem].

    A shallow embedding of [App.tsx], [types.ts] and
    [services/geminiService.ts].  React state is threaded explicitly; the
    JavaScript exceptions, [try]/[catch]/[finally] and the one [await] of
    the program are written out.  The libraries the program calls but does
    not contain (mathjs, the Gemini client, [JSON.parse], [crypto],
    [Date]) are parameters of the development. *)

From Stdlib Require Import List ZArith NArith Bool Ascii Lia.
From Stdlib Require String.
Import ListNotations.
Import String.StringSyntax.

Set Implicit Arguments.

Local Open Scope Z_scope.

(** ** JavaScript values used by the program *)

(** A JavaScript string is a sequence of UTF-16 code units. *)
Definition jsstring := list N.

(** A string literal of the source whose characters are all ASCII. *)
Definition lit (s : String.string) : jsstring :=
  map N_of_ascii (String.list_ascii_of_string s).

Delimit Scope string_scope with str.
Arguments lit s%_str.

(** [!s] is [false] exactly for a non-empty string. *)
Definition truthy (s : jsstring) : bool :=
  match s with
  | [] => false
  | _ :: _ => true
  end.

(** [a === b] on strings. *)
Fixpoint str_eqb (a b : jsstring) : bool :=
  match a, b with
  | [], [] => true
  | x :: a', y :: b' => N.eqb x y && str_eqb a' b'
  | _, _ => false
  end.

(** [a <= b] on strings: lexicographic order of the code units. *)
Fixpoint str_leb (a b : jsstring) : bool :=
  match a, b with
  | [], _ => true
  | _ :: _, [] => false
  | x :: a', y :: b' =>
      if N.ltb x y then true
      else if N.eqb x y then str_leb a' b'
      else false
  end.

(** [xs.includes(k)] on an array of strings. *)
Definition includes (xs : list jsstring) (k : jsstring) : bool :=
  existsb (str_eqb k) xs.

(** [String.prototype.slice] and [Array.prototype.slice] share one
    algorithm: a negative index counts from the end, both indices are
    clamped to the length, and an empty span gives the empty sequence. *)
Definition slice {A : Type} (l : list A) (start stop : Z) : list A :=
  let len := Z.of_nat (length l) in
  let from := if start <? 0 then Z.max (len + start) 0 else Z.min start len in
  let to := if stop <? 0 then Z.max (len + stop) 0 else Z.min stop len in
  firstn (Z.to_nat (to - from)) (skipn (Z.to_nat from) l).

(** The code units [String.prototype.trim] strips: WhiteSpace and
    LineTerminator of ECMAScript. *)
Definition isWhiteSpace (c : N) : bool :=
  (existsb (N.eqb c)
     [9; 10; 11; 12; 13; 32; 160; 5760; 8232; 8233; 8239; 8287; 12288; 65279]
   || (N.leb 8192 c && N.leb c 8202))%N%bool.

Fixpoint trimStart (s : jsstring) : jsstring :=
  match s with
  | [] => []
  | c :: s' => if isWhiteSpace c then trimStart s' else s
  end.

Definition trimEnd (s : jsstring) : jsstring := rev (trimStart (rev s)).

Definition trim (s : jsstring) : jsstring := trimEnd (trimStart s).

(** ** Exceptions *)

(** A thrown value (or the reason of a rejected promise). *)
Inductive exn : Type :=
| Exn (message : jsstring).

(** How an evaluation ends; for an awaited promise, [Normal] is
    fulfilment and [Throw] is rejection. *)
Inductive Completion (A : Type) : Type :=
| Normal (a : A)
| Throw (e : exn).

Arguments Normal {A} a.
Arguments Throw {A} e.

(** ** types.ts *)

Inductive CalcMode : Type := standard | scientific | ai.

Module CalculationRecord.
Record t : Type := mk
  { id : jsstring;
    expression : jsstring;
    result : jsstring;
    timestamp : Z;
    isAi : option bool;
    explanation : option jsstring }.
End CalculationRecord.

Module AiResponse.
Record t : Type := mk
  { answer : jsstring;
    explanation : jsstring;
    steps : list jsstring }.
End AiResponse.

(** ** services/geminiService.ts *)

Module geminiService.

(** The [responseSchema] literal of the request. *)
Inductive Schema : Type :=
| STRING (description : option jsstring)
| ARRAY (items : Schema) (description : option jsstring).

Record ObjectSchema : Type :=
  { properties : list (jsstring * Schema);
    required : list jsstring;
    propertyOrdering : list jsstring }.

Record Config : Type :=
  { systemInstruction : jsstring;
    responseMimeType : jsstring;
    responseSchema : ObjectSchema }.

Record GenerateContentParameters : Type :=
  { model : jsstring;
    contents : jsstring;
    config : Config }.

(** The part of the client's response the function reads:
    [response.text] is a string or [undefined]. *)
Record GenerateContentResponse : Type :=
  { text : option jsstring }.

(** The value of [JSON.parse], as far as the function inspects it.
    Reading a property of [null] raises a TypeError; on any other value
    the three properties read are present or [undefined]/[null]
    ([None]).  A present property has the type [AiResponse] and the
    response schema declare for it. *)
Inductive parsed : Type :=
| JNull
| JValue (answer explanation : option jsstring)
         (steps : option (list jsstring)).

Definition TypeError : exn :=
  Exn (lit "Cannot read properties of null").

Definition bind {A B : Type} (c : Completion A) (k : A -> Completion B)
  : Completion B :=
  match c with
  | Normal a => k a
  | Throw e => Throw e
  end.

Definition try_catch {A : Type} (body : Completion A)
           (handler : exn -> Completion A) : Completion A :=
  match body with
  | Normal a => Normal a
  | Throw e => handler e
  end.

(** [x || d] for a string-or-undefined [x]: the empty string is falsy. *)
Definition or_string (x : option jsstring) (d : jsstring) : jsstring :=
  match x with
  | Some s => if truthy s then s else d
  | None => d
  end.

(** [x || d] for an array-or-undefined [x]: every array is truthy. *)
Definition or_array (x : option (list jsstring)) (d : list jsstring)
  : list jsstring :=
  match x with
  | Some l => l
  | None => d
  end.

Definition get_answer (r : parsed) : Completion (option jsstring) :=
  match r with
  | JNull => Throw TypeError
  | JValue a _ _ => Normal a
  end.

Definition get_explanation (r : parsed) : Completion (option jsstring) :=
  match r with
  | JNull => Throw TypeError
  | JValue _ e _ => Normal e
  end.

Definition get_steps (r : parsed) : Completion (option (list jsstring)) :=
  match r with
  | JNull => Throw TypeError
  | JValue _ _ s => Normal s
  end.

Definition quote : jsstring := [34%N].

Definition request (query : jsstring) : GenerateContentParameters :=
  {| model := lit "gemini-3-pro-preview";
     contents :=
       lit "Solve this mathematical problem or explain this concept: "
         ++ quote ++ query ++ quote;
     config :=
       {| systemInstruction :=
            lit "You are an elite mathematical assistant. Provide a structured JSON response including the final answer, a brief explanation, and step-by-step logic.";
          responseMimeType := lit "application/json";
          responseSchema :=
            {| properties :=
                 [ (lit "answer",
                    STRING (Some (lit "The concise final numerical or algebraic answer.")));
                   (lit "explanation",
                    STRING (Some (lit "A brief 1-2 sentence overview of the logic.")));
                   (lit "steps",
                    ARRAY (STRING None)
                          (Some (lit "An array of logical steps taken to reach the answer."))) ];
               required := [lit "answer"; lit "explanation"; lit "steps"];
               propertyOrdering :=
                 [lit "answer"; lit "explanation"; lit "steps"] |} |} |}.

(** The record of the [catch] branch. *)
Definition fallback : AiResponse.t :=
  {| AiResponse.answer := lit "Error";
     AiResponse.explanation := lit "Failed to connect to AI assistant.";
     AiResponse.steps :=
       [lit "Please check your internet connection or API key."] |}.

Section Service.

(** [await ai.models.generateContent(...)]: how the network call of
    this invocation settles. *)
Variable generateContent :
  GenerateContentParameters -> Completion GenerateContentResponse.

(** [JSON.parse]: raises a SyntaxError on text that is not JSON. *)
Variable JSON_parse : jsstring -> Completion parsed.

(** The [try] block. *)
Definition solveMathProblem_try (query : jsstring)
  : Completion AiResponse.t :=
  bind (generateContent (request query)) (fun response =>
  bind (JSON_parse (or_string (text response) (lit "{}"))) (fun result =>
  bind (get_answer result) (fun answer =>
  bind (get_explanation result) (fun explanation =>
  bind (get_steps result) (fun steps =>
  Normal
    {| AiResponse.answer := or_string answer (lit "Error: No answer provided");
       AiResponse.explanation :=
         or_string explanation (lit "No explanation available.");
       AiResponse.steps := or_array steps [] |}))))).

(** What the promise of [solveMathProblem(query)] settles to.  The
    [console.error] of the [catch] branch writes to the console only. *)
Definition solveMathProblem (query : jsstring) : Completion AiResponse.t :=
  try_catch (solveMathProblem_try query) (fun error => Normal fallback).

End Service.

End geminiService.

(** ** App.tsx *)

Module State.
(** The six [useState] cells of [App]. *)
Record t : Type := mk
  { mode : CalcMode;
    expression : jsstring;
    result : jsstring;
    history : list CalculationRecord.t;
    isAiLoading : bool;
    aiExplain : option AiResponse.t }.

(** The initial values passed to [useState]. *)
Definition initial : t :=
  {| mode := standard;
     expression := [];
     result := [];
     history := [];
     isAiLoading := false;
     aiExplain := None |}.
End State.

(** A call that leaves the component: [math.evaluate(expression)] or
    [solveMathProblem(query)]. *)
Inductive Call : Type :=
| Evaluate (expression : jsstring)
| Solve (query : jsstring).

(** The component's state, the calls it has made so far (oldest first),
    and the [solveMathProblem] promises not yet settled, each with the
    [expression] its [handleAiSolve] closed over. *)
Record World : Type :=
  { app : State.t;
    calls : list Call;
    pending : list jsstring }.

Definition initial : World :=
  {| app := State.initial; calls := []; pending := [] |}.

(** A handler: it ends normally or by a throw, and its state updates
    made before a throw persist. *)
Definition M (A : Type) : Type := World -> Completion A * World.

Definition ret {A : Type} (a : A) : M A := fun w => (Normal a, w).

Definition bind {A B : Type} (m : M A) (k : A -> M B) : M B :=
  fun w =>
    match m w with
    | (Normal a, w') => k a w'
    | (Throw e, w') => (Throw e, w')
    end.

Declare Scope js_scope.
Delimit Scope js_scope with js.
Notation "x <- m ;; k" := (bind m (fun x => k))
  (at level 61, m at next level, right associativity) : js_scope.
Notation "m ;; k" := (bind m (fun _ => k))
  (at level 61, right associativity) : js_scope.
Local Open Scope js_scope.

(** [try { body } catch (err) { handler }] *)
Definition try_catch {A : Type} (body : M A) (handler : exn -> M A) : M A :=
  fun w =>
    match body w with
    | (Normal a, w') => (Normal a, w')
    | (Throw e, w') => handler e w'
    end.

(** [try { body } finally { final }] *)
Definition try_finally {A : Type} (body : M A) (final : M unit) : M A :=
  fun w =>
    match body w with
    | (c, w') =>
        match final w' with
        | (Normal _, w'') => (c, w'')
        | (Throw e, w'') => (Throw e, w'')
        end
    end.

(** [if (b) stmt;] *)
Definition when (b : bool) (stmt : M unit) : M unit :=
  if b then stmt else ret tt.

(** The world a handler leaves behind. *)
Definition exec {A : Type} (m : M A) (w : World) : World := snd (m w).

(** How a handler ends. *)
Definition completion {A : Type} (m : M A) (w : World) : Completion A :=
  fst (m w).

(** The argument of a state setter: a new value, or a function of the
    previous one. *)
Inductive SetStateAction (A : Type) : Type :=
| Value (a : A)
| Updater (f : A -> A).

Arguments Value {A} a.
Arguments Updater {A} f.

Definition apply_action {A : Type} (u : SetStateAction A) (prev : A) : A :=
  match u with
  | Value a => a
  | Updater f => f prev
  end.

Definition modify (f : State.t -> State.t) : M unit :=
  fun w => (Normal tt, {| app := f (app w); calls := calls w; pending := pending w |}).

Definition setMode (u : SetStateAction CalcMode) : M unit :=
  modify (fun s =>
    {| State.mode := apply_action u (State.mode s);
       State.expression := State.expression s;
       State.result := State.result s;
       State.history := State.history s;
       State.isAiLoading := State.isAiLoading s;
       State.aiExplain := State.aiExplain s |}).

Definition setExpression (u : SetStateAction jsstring) : M unit :=
  modify (fun s =>
    {| State.mode := State.mode s;
       State.expression := apply_action u (State.expression s);
       State.result := State.result s;
       State.history := State.history s;
       State.isAiLoading := State.isAiLoading s;
       State.aiExplain := State.aiExplain s |}).

Definition setResult (u : SetStateAction jsstring) : M unit :=
  modify (fun s =>
    {| State.mode := State.mode s;
       State.expression := State.expression s;
       State.result := apply_action u (State.result s);
       State.history := State.history s;
       State.isAiLoading := State.isAiLoading s;
       State.aiExplain := State.aiExplain s |}).

Definition setHistory (u : SetStateAction (list CalculationRecord.t)) : M unit :=
  modify (fun s =>
    {| State.mode := State.mode s;
       State.expression := State.expression s;
       State.result := State.result s;
       State.history := apply_action u (State.history s);
       State.isAiLoading := State.isAiLoading s;
       State.aiExplain := State.aiExplain s |}).

Definition setIsAiLoading (u : SetStateAction bool) : M unit :=
  modify (fun s =>
    {| State.mode := State.mode s;
       State.expression := State.expression s;
       State.result := State.result s;
       State.history := State.history s;
       State.isAiLoading := apply_action u (State.isAiLoading s);
       State.aiExplain := State.aiExplain s |}).

Definition setAiExplain (u : SetStateAction (option AiResponse.t)) : M unit :=
  modify (fun s =>
    {| State.mode := State.mode s;
       State.expression := State.expression s;
       State.result := State.result s;
       State.history := State.history s;
       State.isAiLoading := State.isAiLoading s;
       State.aiExplain := apply_action u (State.aiExplain s) |}).

(** [await p] for a promise that has settled to [settled]. *)
Definition await {A : Type} (settled : Completion A) : M A :=
  fun w => (settled, w).

(** The call [solveMathProblem(query)]: it returns a promise at once;
    the call is recorded and the promise is pending. *)
Definition call_solveMathProblem (query : jsstring) : M unit :=
  fun w =>
    (Normal tt,
     {| app := app w;
        calls := calls w ++ [Solve query];
        pending := pending w ++ [query] |}).

Definition mode_eqb (a b : CalcMode) : bool :=
  match a, b with
  | standard, standard | scientific, scientific | ai, ai => true
  | _, _ => false
  end.

Section Component.

(** mathjs: the values [math.evaluate] returns, the function itself
    (it throws on an expression it cannot evaluate), and [String(res)]. *)
Variable value : Type.
Variable math_evaluate : jsstring -> Completion value.
Variable String' : value -> jsstring.

(** The call [math.evaluate(expression)], recorded. *)
Definition call_math_evaluate (expression : jsstring) : M value :=
  fun w =>
    (math_evaluate expression,
     {| app := app w;
        calls := calls w ++ [Evaluate expression];
        pending := pending w |}).

Definition handleClear : M unit :=
  setExpression (Value []) ;;
  setResult (Value []) ;;
  setAiExplain (Value None).

Definition handleBackspace : M unit :=
  setExpression (Updater (fun prev => slice prev 0 (-1))).

Definition addToExpression (val : jsstring) : M unit :=
  setExpression (Updater (fun prev => prev ++ val)).

Section Render.

(** The values of [mode] and [expression] in the render whose
    closures are running. *)
Variable mode : CalcMode.
Variable expression : jsstring.

(** The values [crypto.randomUUID()] and [Date.now()] return in this
    invocation. *)
Variable uuid : jsstring.
Variable now : Z.

Definition calculate : M unit :=
  if negb (truthy expression) then ret tt
  else
    try_catch
      (res <- call_math_evaluate expression ;;
       let resStr := String' res in
       setResult (Value resStr) ;;
       let newRecord :=
         {| CalculationRecord.id := uuid;
            CalculationRecord.expression := expression;
            CalculationRecord.result := resStr;
            CalculationRecord.timestamp := now;
            CalculationRecord.isAi := None;
            CalculationRecord.explanation := None |} in
       setHistory (Updater (fun prev => slice (newRecord :: prev) 0 50)))
      (fun err => setResult (Value (lit "Error"))).

(** [handleAiSolve] up to its [await]: [Some query] when it is
    suspended on [solveMathProblem(query)], [None] when it returned
    early. *)
Definition handleAiSolve_await : M (option jsstring) :=
  if negb (truthy (trim expression)) then ret None
  else
    setIsAiLoading (Value true) ;;
    setAiExplain (Value None) ;;
    call_solveMathProblem expression ;;
    ret (Some expression).

(** [handleAiSolve] from the moment the awaited promise has settled. *)
Definition handleAiSolve_resume (settled : Completion AiResponse.t)
  : M unit :=
  try_finally
    (try_catch
       (aiRes <- await settled ;;
        setAiExplain (Value (Some aiRes)) ;;
        setResult (Value (AiResponse.answer aiRes)) ;;
        let newRecord :=
          {| CalculationRecord.id := uuid;
             CalculationRecord.expression := expression;
             CalculationRecord.result := AiResponse.answer aiRes;
             CalculationRecord.timestamp := now;
             CalculationRecord.isAi := Some true;
             CalculationRecord.explanation :=
               Some (AiResponse.explanation aiRes) |} in
        setHistory (Updater (fun prev => slice (newRecord :: prev) 0 50)))
       (fun error => setResult (Value (lit "AI Error"))))
    (setIsAiLoading (Value false)).

Definition onKeyPress (key : jsstring) : M unit :=
  if mode_eqb mode ai then ret tt
  else
    when (str_leb (lit "0") key && str_leb key (lit "9"))
         (addToExpression key) ;;
    when (includes
            [lit "+"; lit "-"; lit "*"; lit "/"; lit "("; lit ")";
             lit "."; lit "^"] key)
         (addToExpression key) ;;
    when (str_eqb key (lit "Enter")) calculate ;;
    when (str_eqb key (lit "Backspace")) handleBackspace ;;
    when (str_eqb key (lit "Escape")) handleClear.

End Render.

(** [onClick] of a mode tab. *)
Definition onClick_mode (m : CalcMode) : M unit :=
  setMode (Value m) ;; handleClear.

(** [onClick] of the history item rendered for [record]. *)
Definition onClick_record (record : CalculationRecord.t) : M unit :=
  setExpression (Value (CalculationRecord.expression record)) ;;
  setResult (Value (CalculationRecord.result record)).

(** [onClick] of "Clear All". *)
Definition onClick_clearAll : M unit := setHistory (Value []).

(** [onChange] of the AI text area. *)
Definition onChange_textarea (v : jsstring) : M unit :=
  setExpression (Value v).

(** [handleAiSolve] when nothing else happens between its call of the
    solver and the settlement of the promise; [solver] is what
    [solveMathProblem] settles to on this invocation. *)
Definition handleAiSolve (solver : jsstring -> Completion AiResponse.t)
           (expression uuid : jsstring) (now : Z) : M unit :=
  q <- handleAiSolve_await expression ;;
  match q with
  | None => ret tt
  | Some query =>
      fun w =>
        handleAiSolve_resume expression uuid now (solver query)
          {| app := app w; calls := calls w;
             pending := removelast (pending w) |}
  end.

End Component.

(** The buffer after the given tokens were appended in order. *)
Definition appendTokens (w : World) (tokens : list jsstring) : World :=
  fold_left (fun w val => exec (addToExpression val) w) tokens w.

(** ** The rendered surface: which user events reach which handler *)

(** The labels bound to [addToExpression] in every non-AI mode. *)
Definition standard_tokens : list jsstring :=
  [lit "("; lit ")"; lit "/"; lit "7"; lit "8"; lit "9"; lit "*";
   lit "4"; lit "5"; lit "6"; lit "-"; lit "1"; lit "2"; lit "3";
   lit "+"; lit "0"; lit "."].

(** The tokens the scientific mode adds. *)
Definition scientific_tokens : list jsstring :=
  [lit "sin("; lit "cos("; lit "tan("; lit "log10("; lit "log(";
   lit "sqrt("; lit "^"; lit "pi"].

Inductive Event : Type :=
| ClickMode (m : CalcMode)
| ClickAC
| ClickToken (val : jsstring)
| ClickEquals (uuid : jsstring) (now : Z)
| KeyDown (key uuid : jsstring) (now : Z)
| ChangeText (v : jsstring)
| ClickAskGemini
| AiSettled (i : nat) (settled : Completion AiResponse.t)
            (uuid : jsstring) (now : Z)
| ClickHistoryItem (i : nat)
| ClickClearAll.

(** The pending promises without the [i]-th. *)
Definition settle (i : nat) (w : World) : World :=
  {| app := app w;
     calls := calls w;
     pending := firstn i (pending w) ++ skipn (S i) (pending w) |}.

Section Session.

Variable value : Type.
Variable math_evaluate : jsstring -> Completion value.
Variable String' : value -> jsstring.

(** One event, handled by the closures of the current render.  An event
    on a control that is not rendered, or is disabled, changes nothing. *)
Definition dispatch (w : World) (ev : Event) : World :=
  let mode := State.mode (app w) in
  let expression := State.expression (app w) in
  match ev with
  | ClickMode m => exec (onClick_mode m) w
  | ClickAC =>
      if mode_eqb mode ai then w else exec handleClear w
  | ClickToken val =>
      if negb (mode_eqb mode ai)
         && (includes standard_tokens val
             || (mode_eqb mode scientific && includes scientific_tokens val))
      then exec (addToExpression val) w
      else w
  | ClickEquals uuid now =>
      if mode_eqb mode ai then w
      else exec (calculate math_evaluate String' expression uuid now) w
  | KeyDown key uuid now =>
      exec (onKeyPress math_evaluate String' mode expression uuid now key) w
  | ChangeText v =>
      if mode_eqb mode ai then exec (onChange_textarea v) w else w
  | ClickAskGemini =>
      if mode_eqb mode ai
         && negb (State.isAiLoading (app w) || negb (truthy expression))
      then exec (handleAiSolve_await expression) w
      else w
  | AiSettled i settled uuid now =>
      match nth_error (pending w) i with
      | Some captured =>
          exec (handleAiSolve_resume captured uuid now settled) (settle i w)
      | None => w
      end
  | ClickHistoryItem i =>
      match nth_error (State.history (app w)) i with
      | Some record => exec (onClick_record record) w
      | None => w
      end
  | ClickClearAll => exec onClick_clearAll w
  end.

(** A session: the events of its trace, handled in order. *)
Definition run (w : World) (trace : list Event) : World :=
  fold_left dispatch trace w.

(** One calculation per element of [cs]: the "=" handler of a render
    whose buffer is the first component, with the identifier and the
    clock reading of that moment. *)
Definition calculations (w : World) (cs : list (jsstring * jsstring * Z))
  : World :=
  fold_left
    (fun w c =>
       match c with
       | (expression, uuid, now) =>
           exec (calculate math_evaluate String' expression uuid now) w
       end)
    cs w.

(** The record a successful calculation creates. *)
Definition record_of (c : jsstring * jsstring * Z) (resStr : jsstring)
  : CalculationRecord.t :=
  match c with
  | (expression, uuid, now) =>
      {| CalculationRecord.id := uuid;
         CalculationRecord.expression := expression;
         CalculationRecord.result := resStr;
         CalculationRecord.timestamp := now;
         CalculationRecord.isAi := None;
         CalculationRecord.explanation := None |}
  end.

(** A calculation together with the value the evaluator returns for it. *)
Definition succeeds (cv : jsstring * jsstring * Z * value) : Prop :=
  fst (fst (fst cv)) <> [] /\ math_evaluate (fst (fst (fst cv))) = Normal (snd cv).

(** The record that calculation leaves in the ledger. *)
Definition recorded (cv : jsstring * jsstring * Z * value)
  : CalculationRecord.t :=
  record_of (fst cv) (String' (snd cv)).

End Session.

(** The ledger holds at most fifty records. *)
Definition bounded (w : World) : Prop :=
  (length (State.history (app w)) <= 50)%nat.

(** A handler that keeps the ledger bounded, however it ends. *)
Definition preserves {A : Type} (m : M A) : Prop :=
  forall w : World, bounded w -> bounded (exec m w).

(** ** Test doubles used by the closed examples *)

Module Stub.

(** A double for mathjs, defined on the two expressions of the
    examples: its values are their own renderings, ["2+2"] evaluates to
    ["4"], and every other expression throws. *)
Definition math_evaluate (expression : jsstring) : Completion jsstring :=
  if str_eqb expression (lit "2+2") then Normal (lit "4")
  else Throw (Exn (lit "SyntaxError")).

Definition String' (v : jsstring) : jsstring := v.

(** A double for [JSON.parse], defined on the two texts of the
    examples: ["{}"] is the object without properties, ["null"] is
    [null], and every other text is refused. *)
Definition JSON_parse (text : jsstring) : Completion geminiService.parsed :=
  if str_eqb text (lit "{}") then Normal (geminiService.JValue None None None)
  else if str_eqb text (lit "null") then Normal geminiService.JNull
  else Throw (Exn (lit "SyntaxError")).

(** A network call that is rejected. *)
Definition offline (_ : geminiService.GenerateContentParameters)
  : Completion geminiService.GenerateContentResponse :=
  Throw (Exn (lit "fetch failed")).

(** A network call answered with the given text. *)
Definition answering (text : option jsstring)
           (_ : geminiService.GenerateContentParameters)
  : Completion geminiService.GenerateContentResponse :=
  Normal {| geminiService.text := text |}.

(** A world whose buffer is [expression] in mode [mode], otherwise
    initial. *)
Definition world (mode : CalcMode) (expression : jsstring) : World :=
  {| app :=
       {| State.mode := mode;
          State.expression := expression;
          State.result := [];
          State.history := [];
          State.isAiLoading := false;
          State.aiExplain := None |};
     calls := [];
     pending := [] |}.

(** Sixty calculations of ["2+2"], identified by their position. *)
Definition sixty : list (jsstring * jsstring * Z) :=
  map (fun i => (lit "2+2", [N.of_nat i], Z.of_nat i)) (seq 0 60).

(** A world whose ledger holds one AI record and one plain record. *)
Definition two_records : World :=
  {| app :=
       {| State.mode := standard;
          State.expression := lit "7";
          State.result := [];
          State.history :=
            [ CalculationRecord.mk (lit "b") (lit "speed?") (lit "40 mph") 2
                                   (Some true) (Some (lit "distance / time"));
              CalculationRecord.mk (lit "a") (lit "2+2") (lit "4") 1
                                   None None ];
          State.isAiLoading := false;
          State.aiExplain := None |};
     calls := [];
     pending := [] |}.

End Stub.

(** ** Predicates and iterations of the further properties *)

(** The keys [onKeyPress] looks up with [includes]. *)
Definition operator_keys : list jsstring :=
  [lit "+"; lit "-"; lit "*"; lit "/"; lit "("; lit ")"; lit "."; lit "^"].

(** Every code unit of the string is white space. *)
Definition blank (s : jsstring) : bool := forallb isWhiteSpace s.

(** Backspace pressed [n] times. *)
Fixpoint backspaces (n : nat) (w : World) : World :=
  match n with
  | O => w
  | S n' => backspaces n' (exec handleBackspace w)
  end.

(** A handler that keeps a property of the world, however it ends. *)
Definition keeps {A : Type} (I : World -> Prop) (m : M A) : Prop :=
  forall w : World, I w -> I (exec m w).

(** No request is in flight and the loading flag is down, or exactly one
    request is in flight and the flag is up. *)
Definition single_flight (w : World) : Prop :=
  (pending w = [] /\ State.isAiLoading (app w) = false)
  \/ (exists q, pending w = [q] /\ State.isAiLoading (app w) = true).

(** The two shapes of record the program creates: the one of [calculate],
    for a non-empty buffer, and the one of [handleAiSolve], for a buffer
    that is not blank. *)
Definition wf_record (r : CalculationRecord.t) : Prop :=
  (CalculationRecord.isAi r = None
   /\ CalculationRecord.explanation r = None
   /\ CalculationRecord.expression r <> [])
  \/ (CalculationRecord.isAi r = Some true
      /\ (exists e, CalculationRecord.explanation r = Some e)
      /\ blank (CalculationRecord.expression r) = false).

(** Every record of the ledger has one of the two shapes, and every
    request in flight was made for a buffer that is not blank. *)
Definition ledger_wf (w : World) : Prop :=
  Forall wf_record (State.history (app w))
  /\ Forall (fun q => blank q = false) (pending w).

(** How one event may change the ledger: not at all, to the empty
    ledger, or by one new record at the head with the fifty-first
    dropped. *)
Definition ledger_step (h h' : list CalculationRecord.t) : Prop :=
  h' = h \/ h' = [] \/ exists r, h' = firstn 50 (r :: h).

(** A handler whose effect on the ledger is within [R]. *)
Definition ledger_rel {A : Type}
           (R : list CalculationRecord.t -> list CalculationRecord.t -> Prop)
           (m : M A) : Prop :=
  forall w : World,
    R (State.history (app w)) (State.history (app (exec m w))).

(** ** Facts about [slice] *)

Lemma firstn_min_length (A : Type) (n : nat) (l : list A) :
  firstn (Nat.min n (length l)) l = firstn n l.
Proof.
  destruct (Nat.le_gt_cases n (length l)) as [H | H].
  - now rewrite Nat.min_l.
  - rewrite Nat.min_r by lia.
    rewrite firstn_all, firstn_all2 by lia. reflexivity.
Qed.

(** [l.slice(0, n)] keeps the first [n] elements. *)
Lemma slice_0 (A : Type) (l : list A) (n : nat) :
  slice l 0 (Z.of_nat n) = firstn n l.
Proof.
  unfold slice; cbv zeta.
  replace (0 <? 0) with false by reflexivity.
  replace (Z.of_nat n <? 0) with false by (symmetry; apply Z.ltb_ge; lia).
  rewrite (Z.min_l 0) by lia. cbn [Z.to_nat skipn].
  rewrite Z.sub_0_r, <- Nat2Z.inj_min, Nat2Z.id.
  apply firstn_min_length.
Qed.

Lemma slice_0_50 (A : Type) (l : list A) : slice l 0 50 = firstn 50 l.
Proof. exact (slice_0 l 50). Qed.

(** [s.slice(0, -1)] drops the last element, if there is one. *)
Lemma slice_0_m1 (A : Type) (l : list A) :
  slice l 0 (-1) = removelast l.
Proof.
  unfold slice; cbv zeta.
  replace (0 <? 0) with false by reflexivity.
  replace (-1 <? 0) with true by reflexivity.
  rewrite (Z.min_l 0) by lia. cbn [Z.to_nat skipn]. rewrite Z.sub_0_r.
  destruct l as [| a l]; [reflexivity |].
  rewrite Z.max_l by (cbn [length]; lia).
  replace (Z.to_nat (Z.of_nat (length (a :: l)) + -1))
    with (Nat.pred (length (a :: l))) by (cbn [length]; lia).
  symmetry. apply removelast_firstn_len.
Qed.

Lemma length_firstn_50 (A : Type) (l : list A) :
  (length (firstn 50 l) <= 50)%nat.
Proof. rewrite length_firstn. lia. Qed.

(** ** The expression buffer *)

Lemma addToExpression_spec (w : World) (val : jsstring) :
  addToExpression val w
  = (Normal tt,
     {| app :=
          {| State.mode := State.mode (app w);
             State.expression := State.expression (app w) ++ val;
             State.result := State.result (app w);
             State.history := State.history (app w);
             State.isAiLoading := State.isAiLoading (app w);
             State.aiExplain := State.aiExplain (app w) |};
        calls := calls w;
        pending := pending w |}).
Proof. reflexivity. Qed.

(** C8: appending tokens one after the other leaves the buffer equal to
    the initial buffer followed by the tokens in call order; every token,
    whatever it is, is accepted (the call ends normally and appends it). *)
Theorem appendToken_concat (w : World) (tokens : list jsstring) :
  State.expression (app (appendTokens w tokens))
  = State.expression (app w) ++ concat tokens
  /\ forall val : jsstring,
       completion (addToExpression val) w = Normal tt
       /\ State.expression (app (exec (addToExpression val) w))
          = State.expression (app w) ++ val.
Proof.
  split; [| intro val; unfold completion, exec;
            now rewrite addToExpression_spec].
  revert w. induction tokens as [| val tokens IH]; intro w.
  - cbn. now rewrite app_nil_r.
  - cbn [appendTokens fold_left concat].
    change (fold_left _ tokens ?x) with (appendTokens x tokens).
    rewrite IH. unfold exec. rewrite addToExpression_spec.
    cbn. now rewrite app_assoc.
Qed.

(** C9: [handleBackspace] always ends normally; it removes exactly the
    last code unit of a non-empty buffer and leaves an empty buffer
    empty. *)
Theorem deleteLast_total (w : World) (s : jsstring) (c : N) :
  completion handleBackspace w = Normal tt
  /\ State.expression (app (exec handleBackspace w))
     = removelast (State.expression (app w))
  /\ (State.expression (app w) = s ++ [c] ->
      State.expression (app (exec handleBackspace w)) = s)
  /\ (State.expression (app w) = [] ->
      State.expression (app (exec handleBackspace w)) = []).
Proof.
  assert (E : State.expression (app (exec handleBackspace w))
              = removelast (State.expression (app w))).
  { cbn. apply slice_0_m1. }
  repeat split.
  - exact E.
  - intro H. rewrite E, H. apply removelast_last.
  - intro H. rewrite E, H. reflexivity.
Qed.

Lemma deleteLast_total_witness :
  State.expression (app (exec handleBackspace (Stub.world standard (lit "12"))))
  = lit "1"
  /\ State.expression (app (exec handleBackspace (Stub.world standard [])))
     = [].
Proof.
  split.
  - apply (deleteLast_total (Stub.world standard (lit "12")) (lit "1") 50%N).
    reflexivity.
  - apply (deleteLast_total (Stub.world standard []) [] 0%N).
    reflexivity.
Defined.

(** ** Clearing and mode switching *)

(** C6: a click on the tab of mode [newMode] makes [newMode] the mode and
    clears the buffer, the result and the AI response, whatever the mode
    was before (the same one included); the ledger and the loading flag
    are kept. *)
Theorem setMode_clears (w : World) (newMode : CalcMode) :
  let w' := exec (onClick_mode newMode) w in
  State.mode (app w') = newMode
  /\ State.expression (app w') = []
  /\ State.result (app w') = []
  /\ State.aiExplain (app w') = None
  /\ State.history (app w') = State.history (app w)
  /\ State.isAiLoading (app w') = State.isAiLoading (app w)
  /\ completion (onClick_mode newMode) w = Normal tt.
Proof. cbn. repeat split. Qed.

Section Handlers.

Variable value : Type.
Variable math_evaluate : jsstring -> Completion value.
Variable String' : value -> jsstring.

Lemma mode_eqb_ai (m : CalcMode) : m <> ai -> mode_eqb m ai = false.
Proof. destruct m; [reflexivity | reflexivity | congruence]. Qed.

(** C10: [handleClear] empties the buffer and the result and drops the
    AI response; it keeps the ledger, the loading flag and the mode.
    Outside the AI mode the AC button and the Escape key both run it. *)
Theorem clear_frame (w : World) (uuid : jsstring) (now : Z) :
  let w' := exec handleClear w in
  (State.expression (app w') = []
   /\ State.result (app w') = []
   /\ State.aiExplain (app w') = None
   /\ State.history (app w') = State.history (app w)
   /\ State.isAiLoading (app w') = State.isAiLoading (app w)
   /\ State.mode (app w') = State.mode (app w))
  /\ (State.mode (app w) <> ai ->
      dispatch math_evaluate String' w ClickAC = w'
      /\ dispatch math_evaluate String' w (KeyDown (lit "Escape") uuid now)
         = w').
Proof.
  split; [cbn; repeat split |].
  intro H. cbn [dispatch]. unfold onKeyPress.
  rewrite (mode_eqb_ai H). split; reflexivity.
Qed.

(** C7: a click on a history item copies its expression into the buffer
    and its result into the result; the ledger is the same afterwards
    (no entry added, same length), and no call to the evaluator or to
    the AI solver is made. *)
Theorem selectHistoryEntry_frame (w : World) (i : nat)
        (record : CalculationRecord.t) :
  nth_error (State.history (app w)) i = Some record ->
  let w' := dispatch math_evaluate String' w (ClickHistoryItem i) in
  State.expression (app w') = CalculationRecord.expression record
  /\ State.result (app w') = CalculationRecord.result record
  /\ State.history (app w') = State.history (app w)
  /\ length (State.history (app w')) = length (State.history (app w))
  /\ calls w' = calls w
  /\ pending w' = pending w.
Proof.
  intro H. cbn [dispatch]. rewrite H. cbn. repeat split.
Qed.

Section Calculate.

Variable w : World.
Variables (uuid : jsstring) (now : Z).

(** The buffer that the running [calculate] closed over. *)
Variable expression : jsstring.

Lemma calculate_empty :
  expression = [] ->
  calculate math_evaluate String' expression uuid now w = (Normal tt, w).
Proof. intro H. unfold calculate. rewrite H. reflexivity. Qed.

Lemma calculate_throw (e : exn) :
  expression <> [] ->
  math_evaluate expression = Throw e ->
  calculate math_evaluate String' expression uuid now w
  = (Normal tt,
     {| app :=
          {| State.mode := State.mode (app w);
             State.expression := State.expression (app w);
             State.result := lit "Error";
             State.history := State.history (app w);
             State.isAiLoading := State.isAiLoading (app w);
             State.aiExplain := State.aiExplain (app w) |};
        calls := calls w ++ [Evaluate expression];
        pending := pending w |}).
Proof.
  intros Hne Hev. unfold calculate.
  destruct expression as [| c s] eqn:E; [congruence |].
  cbn [truthy negb].
  unfold try_catch, bind, call_math_evaluate. rewrite Hev. reflexivity.
Qed.

Lemma calculate_normal (v : value) :
  expression <> [] ->
  math_evaluate expression = Normal v ->
  calculate math_evaluate String' expression uuid now w
  = (Normal tt,
     {| app :=
          {| State.mode := State.mode (app w);
             State.expression := State.expression (app w);
             State.result := String' v;
             State.history :=
               firstn 50
                 (record_of (expression, uuid, now) (String' v)
                    :: State.history (app w));
             State.isAiLoading := State.isAiLoading (app w);
             State.aiExplain := State.aiExplain (app w) |};
        calls := calls w ++ [Evaluate expression];
        pending := pending w |}).
Proof.
  intros Hne Hev. unfold calculate.
  destruct expression as [| c s] eqn:E; [congruence |].
  cbn [truthy negb].
  unfold try_catch, bind, call_math_evaluate. rewrite Hev.
  cbn. rewrite slice_0_50. reflexivity.
Qed.

End Calculate.

(** C3: when the evaluator throws on the (non-empty) buffer,
    [calculate] sets the result to ["Error"], leaves the ledger as it
    was (same entries, same length) and leaves the buffer as it was. *)
Theorem calculate_error (w : World) (uuid : jsstring) (now : Z) (e : exn) :
  State.expression (app w) <> [] ->
  math_evaluate (State.expression (app w)) = Throw e ->
  let w' :=
    exec (calculate math_evaluate String' (State.expression (app w)) uuid now)
         w in
  State.result (app w') = lit "Error"
  /\ State.history (app w') = State.history (app w)
  /\ length (State.history (app w')) = length (State.history (app w))
  /\ State.expression (app w') = State.expression (app w)
  /\ completion
       (calculate math_evaluate String' (State.expression (app w)) uuid now)
       w = Normal tt.
Proof.
  intros Hne Hev. unfold exec, completion.
  rewrite (calculate_throw w uuid now Hne Hev). cbn. repeat split.
Qed.

(** C4: when the evaluator returns [v] on the non-empty buffer,
    [calculate] sets the result to the rendering of [v] and puts at the
    head of the ledger a record of the buffer and that rendering, with
    [isAi] and [explanation] unset; a second [calculate] on the
    unchanged buffer puts a second such record in front of the first.
    On an empty buffer [calculate] changes nothing and calls nothing. *)
Theorem calculate_success (w : World) (uuid1 uuid2 : jsstring)
        (now1 now2 : Z) :
  let expression := State.expression (app w) in
  (expression = [] ->
   calculate math_evaluate String' expression uuid1 now1 w = (Normal tt, w))
  /\ forall v : value,
      expression <> [] ->
      math_evaluate expression = Normal v ->
      let newRecord id timestamp :=
        {| CalculationRecord.id := id;
           CalculationRecord.expression := expression;
           CalculationRecord.result := String' v;
           CalculationRecord.timestamp := timestamp;
           CalculationRecord.isAi := None;
           CalculationRecord.explanation := None |} in
      let w1 :=
        exec (calculate math_evaluate String' expression uuid1 now1) w in
      let w2 :=
        exec (calculate math_evaluate String'
                        (State.expression (app w1)) uuid2 now2) w1 in
      State.result (app w1) = String' v
      /\ State.history (app w1)
         = newRecord uuid1 now1 :: firstn 49 (State.history (app w))
      /\ State.expression (app w1) = expression
      /\ State.result (app w2) = String' v
      /\ State.history (app w2)
         = newRecord uuid2 now2 :: newRecord uuid1 now1
             :: firstn 48 (State.history (app w)).
Proof.
  cbv zeta. split; [apply calculate_empty |].
  intros v Hne Hev. unfold exec.
  rewrite (calculate_normal w uuid1 now1 Hne Hev).
  cbn [snd app State.expression State.result State.history].
  rewrite (calculate_normal _ uuid2 now2 (v := v)) by assumption.
  cbn [snd app State.expression State.result State.history record_of].
  change 50%nat with (S (S 48)). rewrite !firstn_cons, firstn_firstn.
  repeat split.
Qed.

End Handlers.

Lemma clear_frame_witness :
  let w := Stub.world scientific (lit "2+(") in
  dispatch Stub.math_evaluate Stub.String' w ClickAC
  = exec handleClear w
  /\ dispatch Stub.math_evaluate Stub.String' w (KeyDown (lit "Escape") [] 0)
     = exec handleClear w.
Proof.
  apply (clear_frame Stub.math_evaluate Stub.String'
                     (Stub.world scientific (lit "2+(")) [] 0).
  discriminate.
Defined.

Lemma selectHistoryEntry_frame_witness :
  let w' :=
    dispatch Stub.math_evaluate Stub.String' Stub.two_records (ClickHistoryItem 1) in
  State.expression (app w') = lit "2+2"
  /\ State.result (app w') = lit "4"
  /\ State.history (app w') = State.history (app Stub.two_records)
  /\ length (State.history (app w')) = 2%nat
  /\ calls w' = []
  /\ pending w' = [].
Proof.
  apply (@selectHistoryEntry_frame _ Stub.math_evaluate Stub.String'
           Stub.two_records 1
           (CalculationRecord.mk (lit "a") (lit "2+2") (lit "4") 1 None None)).
  reflexivity.
Defined.

Lemma calculate_error_witness :
  let w := Stub.world standard (lit "2+(") in
  let w' :=
    exec (calculate Stub.math_evaluate Stub.String' (lit "2+(") (lit "id") 7) w in
  State.result (app w') = lit "Error"
  /\ State.history (app w') = []
  /\ length (State.history (app w')) = 0%nat
  /\ State.expression (app w') = lit "2+("
  /\ completion
       (calculate Stub.math_evaluate Stub.String' (lit "2+(") (lit "id") 7) w
     = Normal tt.
Proof.
  apply (@calculate_error _ Stub.math_evaluate Stub.String'
           (Stub.world standard (lit "2+(")) (lit "id") 7
           (Exn (lit "SyntaxError"))).
  - discriminate.
  - reflexivity.
Defined.

Lemma calculate_success_witness :
  let w := Stub.world standard (lit "2+2") in
  let w1 :=
    exec (calculate Stub.math_evaluate Stub.String' (lit "2+2") (lit "a") 1) w in
  let w2 :=
    exec (calculate Stub.math_evaluate Stub.String' (lit "2+2") (lit "b") 2) w1 in
  State.result (app w1) = lit "4"
  /\ State.history (app w1)
     = [CalculationRecord.mk (lit "a") (lit "2+2") (lit "4") 1 None None]
  /\ State.expression (app w1) = lit "2+2"
  /\ State.result (app w2) = lit "4"
  /\ State.history (app w2)
     = [CalculationRecord.mk (lit "b") (lit "2+2") (lit "4") 2 None None;
        CalculationRecord.mk (lit "a") (lit "2+2") (lit "4") 1 None None].
Proof.
  apply (proj2 (calculate_success Stub.math_evaluate Stub.String'
                  (Stub.world standard (lit "2+2")) (lit "a") (lit "b") 1 2)
               (lit "4")).
  - discriminate.
  - reflexivity.
Defined.

(** ** The history ledger *)

Lemma preserves_ret (A : Type) (a : A) : preserves (ret a).
Proof. intros w H. exact H. Qed.

Lemma preserves_bind (A B : Type) (m : M A) (k : A -> M B) :
  preserves m -> (forall a, preserves (k a)) -> preserves (bind m k).
Proof.
  intros Hm Hk w H. specialize (Hm w H). unfold exec, bind in *.
  destruct (m w) as [[a | e] w']; cbn in *; [now apply Hk | exact Hm].
Qed.

Lemma preserves_try_catch (A : Type) (body : M A) (handler : exn -> M A) :
  preserves body -> (forall e, preserves (handler e)) ->
  preserves (try_catch body handler).
Proof.
  intros Hb Hh w H. specialize (Hb w H). unfold exec, try_catch in *.
  destruct (body w) as [[a | e] w']; cbn in *; [exact Hb | now apply Hh].
Qed.

Lemma preserves_try_finally (A : Type) (body : M A) (final : M unit) :
  preserves body -> preserves final -> preserves (try_finally body final).
Proof.
  intros Hb Hf w H. specialize (Hb w H). unfold exec, try_finally in *.
  destruct (body w) as [c w']; cbn in *. specialize (Hf w' Hb).
  unfold exec in Hf. destruct (final w') as [[u | e] w'']; exact Hf.
Qed.

Lemma preserves_when (b : bool) (stmt : M unit) :
  preserves stmt -> preserves (when b stmt).
Proof. destruct b; [trivial | intros _; apply preserves_ret]. Qed.

Lemma preserves_setMode u : preserves (setMode u).
Proof. intros w H. exact H. Qed.

Lemma preserves_setExpression u : preserves (setExpression u).
Proof. intros w H. exact H. Qed.

Lemma preserves_setResult u : preserves (setResult u).
Proof. intros w H. exact H. Qed.

Lemma preserves_setIsAiLoading u : preserves (setIsAiLoading u).
Proof. intros w H. exact H. Qed.

Lemma preserves_setAiExplain u : preserves (setAiExplain u).
Proof. intros w H. exact H. Qed.

Lemma preserves_await (A : Type) (settled : Completion A) :
  preserves (await settled).
Proof. intros w H. exact H. Qed.

Lemma preserves_call_solveMathProblem query :
  preserves (call_solveMathProblem query).
Proof. intros w H. exact H. Qed.

(** The two updates of the ledger the program makes. *)
Lemma preserves_record (newRecord : CalculationRecord.t) :
  preserves (setHistory (Updater (fun prev => slice (newRecord :: prev) 0 50))).
Proof.
  intros w _. unfold bounded. cbn. rewrite slice_0_50. apply length_firstn_50.
Qed.

Lemma preserves_clearAll : preserves (setHistory (Value [])).
Proof. intros w _. unfold bounded. cbn. lia. Qed.

Create HintDb ledger.

#[local] Hint Resolve preserves_ret preserves_bind preserves_try_catch
  preserves_try_finally preserves_when preserves_setMode
  preserves_setExpression preserves_setResult preserves_setIsAiLoading
  preserves_setAiExplain preserves_await preserves_call_solveMathProblem
  preserves_record preserves_clearAll : ledger.

Lemma firstn_app_firstn (A : Type) (n : nat) (l1 l2 : list A) :
  firstn n (l1 ++ firstn n l2) = firstn n (l1 ++ l2).
Proof.
  rewrite !firstn_app, firstn_firstn. do 2 f_equal. lia.
Qed.

Section Ledger.

Variable value : Type.
Variable math_evaluate : jsstring -> Completion value.
Variable String' : value -> jsstring.

Lemma preserves_call_math_evaluate expression :
  preserves (call_math_evaluate math_evaluate expression).
Proof. intros w H. exact H. Qed.

Hint Resolve preserves_call_math_evaluate : ledger.

Lemma preserves_calculate expression uuid now :
  preserves (calculate math_evaluate String' expression uuid now).
Proof.
  unfold calculate. destruct (negb (truthy expression)); auto 10 with ledger.
Qed.

Lemma preserves_handleClear : preserves handleClear.
Proof. unfold handleClear. auto 10 with ledger. Qed.

Lemma preserves_handleAiSolve_await expression :
  preserves (handleAiSolve_await expression).
Proof.
  unfold handleAiSolve_await.
  destruct (negb (truthy (trim expression))); auto 10 with ledger.
Qed.

Lemma preserves_handleAiSolve_resume expression uuid now settled :
  preserves (handleAiSolve_resume expression uuid now settled).
Proof. unfold handleAiSolve_resume. auto 10 with ledger. Qed.

Hint Resolve preserves_calculate preserves_handleClear : ledger.

Lemma preserves_onKeyPress mode expression uuid now key :
  preserves (onKeyPress math_evaluate String' mode expression uuid now key).
Proof.
  unfold onKeyPress, addToExpression, handleBackspace.
  destruct (mode_eqb mode ai); auto 20 with ledger.
Qed.

(** Every event keeps the ledger bounded. *)
Lemma dispatch_bounded (w : World) (ev : Event) :
  bounded w -> bounded (dispatch math_evaluate String' w ev).
Proof.
  intro H. destruct ev; cbn [dispatch].
  - assert (P : preserves (onClick_mode m))
      by (unfold onClick_mode; auto 10 with ledger).
    now apply P.
  - destruct (mode_eqb _ ai); [exact H | now apply preserves_handleClear].
  - destruct (_ && _); exact H.
  - destruct (mode_eqb _ ai); [exact H | now apply preserves_calculate].
  - now apply preserves_onKeyPress.
  - destruct (mode_eqb _ ai); exact H.
  - destruct (_ && _); [now apply preserves_handleAiSolve_await | exact H].
  - destruct (nth_error (pending w) i);
      [now apply preserves_handleAiSolve_resume | exact H].
  - destruct (nth_error _ i); exact H.
  - now apply preserves_clearAll.
Qed.

Lemma run_bounded (trace : list Event) (w : World) :
  bounded w -> bounded (run math_evaluate String' w trace).
Proof.
  revert w. induction trace as [| ev trace IH]; intros w H; [exact H |].
  cbn [run fold_left]. apply IH. now apply dispatch_bounded.
Qed.

Lemma calculations_history (cvs : list (jsstring * jsstring * Z * value))
      (w : World) :
  Forall (succeeds math_evaluate) cvs ->
  bounded w ->
  State.history (app (calculations math_evaluate String' w (map fst cvs)))
  = firstn 50 (rev (map (recorded String') cvs) ++ State.history (app w)).
Proof.
  intro H. revert w. induction H as [| cv cvs [Hne Hev] _ IH]; intros w Hw.
  - cbn [map rev app calculations fold_left]. symmetry.
    now apply firstn_all2.
  - destruct cv as [[[expression uuid] now] v]. cbn [fst snd] in Hne, Hev.
    cbn [map fst calculations fold_left].
    change (fold_left _ (map fst cvs) ?x)
      with (calculations math_evaluate String' x (map fst cvs)).
    rewrite IH by now apply preserves_calculate.
    unfold exec.
    rewrite (@calculate_normal _ math_evaluate String' w uuid now
                               expression v Hne Hev).
    cbn [snd app State.history rev]. rewrite <- app_assoc.
    apply firstn_app_firstn.
Qed.

(** C2: the ledger never holds more than fifty records, whatever the
    user and the network do; each successful calculation (by "=" or by
    the AI solver) puts its record at the head and keeps the first
    fifty; so a run of successful calculations leaves the most recent
    fifty records, newest first, and after sixty of them the ledger
    holds exactly the fifty most recent. *)
Theorem history_capped :
  (forall trace : list Event,
      (length (State.history (app (run math_evaluate String' initial trace)))
       <= 50)%nat)
  /\ (forall (w : World) (expression uuid : jsstring) (now : Z) (v : value),
         expression <> [] ->
         math_evaluate expression = Normal v ->
         State.history
           (app (exec (calculate math_evaluate String' expression uuid now) w))
         = firstn 50
             (record_of (expression, uuid, now) (String' v)
                :: State.history (app w)))
  /\ (forall (w : World) (captured uuid : jsstring) (now : Z)
             (aiRes : AiResponse.t),
         State.history
           (app (exec (handleAiSolve_resume captured uuid now (Normal aiRes)) w))
         = firstn 50
             ({| CalculationRecord.id := uuid;
                 CalculationRecord.expression := captured;
                 CalculationRecord.result := AiResponse.answer aiRes;
                 CalculationRecord.timestamp := now;
                 CalculationRecord.isAi := Some true;
                 CalculationRecord.explanation :=
                   Some (AiResponse.explanation aiRes) |}
                :: State.history (app w)))
  /\ (forall (w : World) (cvs : list (jsstring * jsstring * Z * value)),
         bounded w ->
         Forall (succeeds math_evaluate) cvs ->
         let w' := calculations math_evaluate String' w (map fst cvs) in
         State.history (app w')
         = firstn 50 (rev (map (recorded String') cvs) ++ State.history (app w))
         /\ (length cvs = 60%nat ->
             State.history (app w') = firstn 50 (rev (map (recorded String') cvs))
             /\ length (State.history (app w')) = 50%nat)).
Proof.
  split; [| split; [| split]].
  - intro trace. apply run_bounded. unfold bounded. cbn. lia.
  - intros w expression uuid now v Hne Hev. unfold exec.
    now rewrite (@calculate_normal _ math_evaluate String' w uuid now
                                   expression v Hne Hev).
  - intros w captured uuid now aiRes.
    cbn [exec handleAiSolve_resume]. unfold exec, try_finally, try_catch.
    cbn -[firstn slice]. now rewrite slice_0_50.
  - intros w cvs Hw H. cbv zeta.
    rewrite (calculations_history H Hw). split; [reflexivity |].
    intro L. rewrite firstn_app.
    replace (50 - length (rev (map (recorded String') cvs)))%nat with 0%nat
      by (rewrite length_rev, length_map; lia).
    rewrite firstn_O, app_nil_r. split; [reflexivity |].
    rewrite length_firstn, length_rev, length_map. lia.
Qed.

End Ledger.

Lemma history_capped_witness :
  let cvs := map (fun c => (c, lit "4")) Stub.sixty in
  let w' :=
    calculations Stub.math_evaluate Stub.String' initial (map fst cvs) in
  State.history (app w')
  = firstn 50 (rev (map (recorded Stub.String') cvs))
  /\ length (State.history (app w')) = 50%nat.
Proof.
  refine (proj2 (proj2 (proj2 (proj2
            (history_capped Stub.math_evaluate Stub.String'))) initial
            (map (fun c => (c, lit "4")) Stub.sixty) _ _) _).
  - unfold bounded. cbn. lia.
  - apply Forall_forall. intros cv Hin.
    apply in_map_iff in Hin. destruct Hin as [c [<- Hc]].
    apply in_map_iff in Hc. destruct Hc as [i [<- _]].
    split; [discriminate | reflexivity].
  - reflexivity.
Defined.

(** ** The AI solver and the AI path *)

Section Solver.

Import geminiService.

Variable generateContent :
  GenerateContentParameters -> Completion GenerateContentResponse.
Variable JSON_parse : jsstring -> Completion parsed.

Let solver : jsstring -> Completion AiResponse.t :=
  solveMathProblem generateContent JSON_parse.

(** When the [try] block throws, the [catch] branch answers. *)
Lemma solveMathProblem_caught (query : jsstring) (e : exn) :
  solveMathProblem_try generateContent JSON_parse query = Throw e ->
  solver query = Normal fallback.
Proof.
  intro H. unfold solver, solveMathProblem. rewrite H. reflexivity.
Qed.

(** The [try] block throws exactly on a rejected request, on a text
    [JSON.parse] refuses, and on a [null] payload. *)
Lemma solveMathProblem_try_throws (query : jsstring) :
  (exists e, solveMathProblem_try generateContent JSON_parse query = Throw e)
  <->
  (exists e, generateContent (request query) = Throw e)
  \/ (exists response,
         generateContent (request query) = Normal response
         /\ ((exists e,
                 JSON_parse (or_string (text response) (lit "{}")) = Throw e)
             \/ JSON_parse (or_string (text response) (lit "{}"))
                = Normal JNull)).
Proof.
  unfold solveMathProblem_try.
  destruct (generateContent (request query)) as [response | e0] eqn:G;
    cbn [geminiService.bind].
  - destruct (JSON_parse (or_string (text response) (lit "{}")))
      as [[| a x s] | e1] eqn:P; cbn [geminiService.bind get_answer
                                      get_explanation get_steps].
    + split; [| intros _; now eexists].
      intros _. right. exists response. split; [reflexivity |]. now right.
    + split; [intros [e H]; discriminate |].
      intros [[e H] | [r [Hr [[e H] | H]]]];
        [discriminate | injection Hr as <-; congruence ..].
    + split; [| intros _; now eexists].
      intros _. right. exists response. split; [reflexivity |].
      left. exists e1. exact P.
  - split; [| intros _; now eexists].
    intros _. left. now exists e0.
Qed.

(** C5, as the code has it: [solveMathProblem] never raises.  When the
    request is rejected, when the text is not JSON and when the payload
    is [null], it returns the fallback record: answer ["Error"],
    explanation ["Failed to connect to AI assistant."], one step.  A
    payload with missing (or empty) fields is not such a failure: each
    of them is replaced on its own, by ["Error: No answer provided"],
    ["No explanation available."] and the empty list of steps. *)
Theorem solveMathProblem_fallback (query : jsstring) :
  (exists r, solver query = Normal r)
  /\ (forall e,
         generateContent (request query) = Throw e ->
         solver query = Normal fallback)
  /\ (forall response,
         generateContent (request query) = Normal response ->
         let payload := JSON_parse (or_string (text response) (lit "{}")) in
         ((exists e, payload = Throw e) \/ payload = Normal JNull ->
          solver query = Normal fallback)
         /\ forall answer explanation steps,
             payload = Normal (JValue answer explanation steps) ->
             solver query
             = Normal
                 {| AiResponse.answer :=
                      or_string answer (lit "Error: No answer provided");
                    AiResponse.explanation :=
                      or_string explanation (lit "No explanation available.");
                    AiResponse.steps := or_array steps [] |})
  /\ AiResponse.answer fallback = lit "Error"
  /\ AiResponse.explanation fallback
     = lit "Failed to connect to AI assistant."
  /\ length (AiResponse.steps fallback) = 1%nat.
Proof.
  split; [| split; [| split; [| now repeat split]]].
  - unfold solver, solveMathProblem.
    destruct (solveMathProblem_try generateContent JSON_parse query);
      now eexists.
  - intros e H. unfold solver, solveMathProblem, solveMathProblem_try.
    now rewrite H.
  - intros response H. cbv zeta. split.
    + intros [[e He] | He];
        unfold solver, solveMathProblem, solveMathProblem_try;
        rewrite H; cbn [geminiService.bind]; rewrite He; reflexivity.
    + intros answer explanation steps He.
      unfold solver, solveMathProblem, solveMathProblem_try.
      rewrite H; cbn [geminiService.bind]; rewrite He; reflexivity.
Qed.

End Solver.

Lemma solveMathProblem_fallback_witness :
  geminiService.solveMathProblem Stub.offline Stub.JSON_parse (lit "1+1")
  = Normal geminiService.fallback
  /\ geminiService.solveMathProblem
       (Stub.answering (Some (lit "null"))) Stub.JSON_parse (lit "1+1")
     = Normal geminiService.fallback.
Proof.
  split.
  - apply (proj1 (proj2 (solveMathProblem_fallback
                           Stub.offline Stub.JSON_parse (lit "1+1")))
                 (Exn (lit "fetch failed"))).
    reflexivity.
  - refine (proj1 (proj1 (proj2 (proj2 (solveMathProblem_fallback
              (Stub.answering (Some (lit "null"))) Stub.JSON_parse (lit "1+1"))))
              {| geminiService.text := Some (lit "null") |} _) _).
    + reflexivity.
    + right. reflexivity.
Defined.

(** C5 fails as stated: a payload whose three fields are missing does not
    produce the fallback record; the answer is ["Error: No answer
    provided"] and there is no step. *)
Lemma solveMathProblem_missing_fields :
  let r :=
    geminiService.solveMathProblem
      (Stub.answering (Some (lit "{}"))) Stub.JSON_parse (lit "1+1") in
  r = Normal
        {| AiResponse.answer := lit "Error: No answer provided";
           AiResponse.explanation := lit "No explanation available.";
           AiResponse.steps := [] |}
  /\ r <> Normal geminiService.fallback.
Proof.
  split; [reflexivity | discriminate].
Qed.

Section AiPath.

Variable solver : jsstring -> Completion AiResponse.t.
Variable w : World.
Variables (expression uuid : jsstring) (now : Z).

Hypothesis non_blank : truthy (trim expression) = true.

(** The promise is fulfilled. *)
Lemma handleAiSolve_fulfilled (aiRes : AiResponse.t) :
  solver expression = Normal aiRes ->
  handleAiSolve solver expression uuid now w
  = (Normal tt,
     {| app :=
          {| State.mode := State.mode (app w);
             State.expression := State.expression (app w);
             State.result := AiResponse.answer aiRes;
             State.history :=
               firstn 50
                 ({| CalculationRecord.id := uuid;
                     CalculationRecord.expression := expression;
                     CalculationRecord.result := AiResponse.answer aiRes;
                     CalculationRecord.timestamp := now;
                     CalculationRecord.isAi := Some true;
                     CalculationRecord.explanation :=
                       Some (AiResponse.explanation aiRes) |}
                    :: State.history (app w));
             State.isAiLoading := false;
             State.aiExplain := Some aiRes |};
        calls := calls w ++ [Solve expression];
        pending := pending w |}).
Proof.
  intro H. unfold handleAiSolve, handleAiSolve_await.
  rewrite non_blank. cbn -[firstn slice]. rewrite H.
  cbn -[firstn slice]. now rewrite slice_0_50, removelast_last.
Qed.

(** The promise is rejected. *)
Lemma handleAiSolve_rejected (e : exn) :
  solver expression = Throw e ->
  handleAiSolve solver expression uuid now w
  = (Normal tt,
     {| app :=
          {| State.mode := State.mode (app w);
             State.expression := State.expression (app w);
             State.result := lit "AI Error";
             State.history := State.history (app w);
             State.isAiLoading := false;
             State.aiExplain := None |};
        calls := calls w ++ [Solve expression];
        pending := pending w |}).
Proof.
  intro H. unfold handleAiSolve, handleAiSolve_await.
  rewrite non_blank. cbn -[firstn slice]. rewrite H.
  cbn -[firstn slice]. now rewrite removelast_last.
Qed.

End AiPath.

(** Whenever and however the promise settles, the resumed
    [handleAiSolve] clears the loading flag. *)
Lemma handleAiSolve_resume_not_loading (w : World) (captured uuid : jsstring)
      (now : Z) (settled : Completion AiResponse.t) :
  State.isAiLoading
    (app (exec (handleAiSolve_resume captured uuid now settled) w)) = false
  /\ completion (handleAiSolve_resume captured uuid now settled) w = Normal tt.
Proof. destruct settled; split; reflexivity. Qed.

Section AiFailure.

Import geminiService.

Variable generateContent :
  GenerateContentParameters -> Completion GenerateContentResponse.
Variable JSON_parse : jsstring -> Completion parsed.

(** C1, as the code has it: with a non-blank buffer the loading flag is
    false after resolution on every path.  When the solver fails
    inside (its [try] block throws), [solveMathProblem] hands back its
    fallback record as an ordinary answer: the result is the fallback
    answer ["Error"], the fallback is kept as the AI response, and an
    AI-flagged record with result ["Error"] is put at the head of the
    ledger.  Only a rejected [solveMathProblem] promise gives the
    result ["AI Error"] with the ledger unchanged. *)
Theorem calculateWithAI_failure (w : World) (uuid : jsstring) (now : Z)
        (e : exn) :
  let expression := State.expression (app w) in
  truthy (trim expression) = true ->
  solveMathProblem_try generateContent JSON_parse expression = Throw e ->
  let w' :=
    exec (handleAiSolve (solveMathProblem generateContent JSON_parse)
                        expression uuid now) w in
  (State.result (app w') = lit "Error"
   /\ State.aiExplain (app w') = Some fallback
   /\ State.history (app w')
      = firstn 50
          ({| CalculationRecord.id := uuid;
              CalculationRecord.expression := expression;
              CalculationRecord.result := lit "Error";
              CalculationRecord.timestamp := now;
              CalculationRecord.isAi := Some true;
              CalculationRecord.explanation :=
                Some (lit "Failed to connect to AI assistant.") |}
             :: State.history (app w))
   /\ State.isAiLoading (app w') = false)
  /\ (forall solver : jsstring -> Completion AiResponse.t,
         State.isAiLoading
           (app (exec (handleAiSolve solver expression uuid now) w)) = false)
  /\ (forall (w0 : World) (settled : Completion AiResponse.t),
         State.isAiLoading
           (app (exec (handleAiSolve_resume expression uuid now settled) w0))
         = false)
  /\ (forall (solver : jsstring -> Completion AiResponse.t) (e' : exn),
         solver expression = Throw e' ->
         let w'' := exec (handleAiSolve solver expression uuid now) w in
         State.result (app w'') = lit "AI Error"
         /\ State.history (app w'') = State.history (app w)
         /\ State.isAiLoading (app w'') = false).
Proof.
  cbv zeta. intros Hnb Hthrow. split; [| split; [| split]].
  - unfold exec.
    rewrite (@handleAiSolve_fulfilled _ w _ uuid now Hnb _
               (@solveMathProblem_caught _ _ _ _ Hthrow)).
    repeat split.
  - intro solver. unfold exec.
    destruct (solver (State.expression (app w))) as [aiRes | e'] eqn:S.
    + now rewrite (@handleAiSolve_fulfilled _ w _ uuid now Hnb _ S).
    + now rewrite (@handleAiSolve_rejected _ w _ uuid now Hnb _ S).
  - intros w0 settled. apply handleAiSolve_resume_not_loading.
  - intros solver e' S. unfold exec.
    rewrite (@handleAiSolve_rejected _ w _ uuid now Hnb _ S). repeat split.
Qed.

End AiFailure.

Lemma calculateWithAI_failure_witness :
  let w := Stub.world ai (lit "1+1") in
  let w' :=
    exec (handleAiSolve
            (geminiService.solveMathProblem Stub.offline Stub.JSON_parse)
            (lit "1+1") (lit "id") 7) w in
  State.result (app w') = lit "Error"
  /\ State.aiExplain (app w') = Some geminiService.fallback
  /\ State.history (app w')
     = [ {| CalculationRecord.id := lit "id";
            CalculationRecord.expression := lit "1+1";
            CalculationRecord.result := lit "Error";
            CalculationRecord.timestamp := 7;
            CalculationRecord.isAi := Some true;
            CalculationRecord.explanation :=
              Some (lit "Failed to connect to AI assistant.") |} ]
  /\ State.isAiLoading (app w') = false.
Proof.
  apply (proj1 (@calculateWithAI_failure Stub.offline Stub.JSON_parse
                  (Stub.world ai (lit "1+1")) (lit "id") 7
                  (Exn (lit "fetch failed")) eq_refl eq_refl)).
Defined.

(** C1 fails as stated: with the network down, [calculateWithAI] on the
    buffer ["1+1"] does add a record to the (empty) ledger, and the result
    is ["Error"], not ["AI Error"]. *)
Lemma calculateWithAI_failure_is_recorded :
  let w := Stub.world ai (lit "1+1") in
  let w' :=
    exec (handleAiSolve
            (geminiService.solveMathProblem Stub.offline Stub.JSON_parse)
            (lit "1+1") (lit "id") 7) w in
  geminiService.solveMathProblem_try Stub.offline Stub.JSON_parse (lit "1+1")
  = Throw (Exn (lit "fetch failed"))
  /\ State.history (app w') <> State.history (app w)
  /\ length (State.history (app w')) = 1%nat
  /\ State.result (app w') = lit "Error"
  /\ State.result (app w') <> lit "AI Error".
Proof.
  cbv zeta. repeat split; try reflexivity; discriminate.
Qed.

(** ** Further properties: strings *)

Lemma str_eqb_eq (a b : jsstring) : str_eqb a b = true <-> a = b.
Proof.
  revert b. induction a as [| x a IH]; intros [| y b]; cbn;
    try (split; [discriminate | congruence]); [tauto |].
  rewrite andb_true_iff, N.eqb_eq, IH. split.
  - now intros [-> ->].
  - intro H. injection H as -> ->. now split.
Qed.

Lemma includes_In (xs : list jsstring) (k : jsstring) :
  includes xs k = true <-> In k xs.
Proof.
  unfold includes. rewrite existsb_exists. split.
  - intros [x [Hin Heq]]. apply str_eqb_eq in Heq. now subst.
  - intro Hin. exists k. split; [exact Hin | now apply str_eqb_eq].
Qed.

Lemma includes_false (xs : list jsstring) (k : jsstring) :
  ~ In k xs -> includes xs k = false.
Proof.
  intro H. destruct (includes xs k) eqn:E; [| reflexivity].
  now apply includes_In in E.
Qed.

Lemma str_eqb_false (a b : jsstring) : a <> b -> str_eqb a b = false.
Proof.
  intro H. destruct (str_eqb a b) eqn:E; [| reflexivity].
  now apply str_eqb_eq in E.
Qed.

Lemma trimStart_nil (s : jsstring) : trimStart s = [] <-> blank s = true.
Proof.
  unfold blank. induction s as [| c s IH]; cbn; [tauto |].
  destruct (isWhiteSpace c); cbn; [exact IH |].
  split; discriminate.
Qed.

Lemma blank_trimStart (s : jsstring) : blank (trimStart s) = blank s.
Proof.
  unfold blank. induction s as [| c s IH]; cbn; [reflexivity |].
  destruct (isWhiteSpace c) eqn:E; cbn; [exact IH | now rewrite E].
Qed.

Lemma blank_rev (s : jsstring) : blank (rev s) = blank s.
Proof.
  unfold blank. induction s as [| c s IH]; cbn; [reflexivity |].
  rewrite forallb_app, IH. cbn. rewrite andb_true_r. apply andb_comm.
Qed.

(** [!s.trim()] holds exactly for a blank string. *)
Lemma truthy_trim (s : jsstring) : truthy (trim s) = negb (blank s).
Proof.
  unfold trim, trimEnd.
  destruct (blank s) eqn:B.
  - assert (E : trimStart (rev (trimStart s)) = []).
    { apply trimStart_nil. now rewrite blank_rev, blank_trimStart. }
    now rewrite E.
  - destruct (rev (trimStart (rev (trimStart s)))) as [| c t] eqn:E;
      [| reflexivity].
    apply (f_equal (@rev N)) in E. rewrite rev_involutive in E. cbn in E.
    apply trimStart_nil in E.
    rewrite blank_rev, blank_trimStart in E. congruence.
Qed.


(** ** Further properties: the keyboard *)

Lemma digit_key_false (key : jsstring) :
  (forall c rest, key = c :: rest -> (c < 48 \/ 57 < c)%N) ->
  str_leb (lit "0") key && str_leb key (lit "9") = false.
Proof.
  intro H. destruct key as [| c rest]; [reflexivity |].
  change (lit "0") with [48%N]. change (lit "9") with [57%N].
  destruct (H c rest eq_refl) as [L | G]; cbn [str_leb].
  - replace (48 <? c)%N with false by (symmetry; apply N.ltb_ge; lia).
    replace (48 =? c)%N with false by (symmetry; apply N.eqb_neq; lia).
    reflexivity.
  - replace (c <? 57)%N with false by (symmetry; apply N.ltb_ge; lia).
    replace (c =? 57)%N with false by (symmetry; apply N.eqb_neq; lia).
    apply andb_false_r.
Qed.

Section Keyboard.

Variable value : Type.
Variable math_evaluate : jsstring -> Completion value.
Variable String' : value -> jsstring.

Variable mode : CalcMode.
Variables (expression uuid : jsstring) (now : Z).
Variable w : World.

(** The [keydown] listener of the render, run on [w]. *)
Let press (key : jsstring) : Completion unit * World :=
  onKeyPress math_evaluate String' mode expression uuid now key w.

(** The routing of [onKeyPress].  In the AI mode no key does anything.
    In the other modes a digit key and an operator key append themselves
    to the buffer, Enter is [calculate], Backspace is [handleBackspace],
    Escape is [handleClear], and a key that does not start with a digit
    and is none of these (a letter, a space, a named key) does nothing. *)
Theorem onKeyPress_routing :
  (mode = ai -> forall key, press key = (Normal tt, w))
  /\ (mode <> ai ->
      (forall c : N, (48 <= c <= 57)%N -> press [c] = addToExpression [c] w)
      /\ (forall key, In key operator_keys ->
                      press key = addToExpression key w)
      /\ press (lit "Enter")
         = calculate math_evaluate String' expression uuid now w
      /\ press (lit "Backspace") = handleBackspace w
      /\ press (lit "Escape") = handleClear w
      /\ (forall key,
             (forall c rest, key = c :: rest -> (c < 48 \/ 57 < c)%N) ->
             ~ In key operator_keys ->
             key <> lit "Enter" ->
             key <> lit "Backspace" ->
             key <> lit "Escape" ->
             press key = (Normal tt, w))).
Proof.
  unfold press, onKeyPress. split.
  - intros ->. reflexivity.
  - intro H. rewrite (mode_eqb_ai H). repeat split.
    + intros c Hc.
      assert (D : In c [48; 49; 50; 51; 52; 53; 54; 55; 56; 57]%N).
      { cbn. lia. }
      cbn in D.
      repeat (destruct D as [<- | D]; [reflexivity |]). contradiction.
    + intros key Hin. cbn in Hin.
      repeat (destruct Hin as [<- | Hin]; [reflexivity |]). contradiction.
    + cbn -[calculate].
      unfold bind, when, ret.
      now destruct (calculate math_evaluate String' expression uuid now w)
        as [[[] | e] w'].
    + intros key Hd Hop He Hb Hc.
      rewrite (digit_key_false Hd).
      unfold operator_keys in Hop. rewrite (@includes_false _ _ Hop).
      now rewrite !str_eqb_false by assumption.
Qed.

End Keyboard.

Lemma onKeyPress_routing_witness :
  let w := Stub.world scientific (lit "2+2") in
  let press :=
    fun key =>
      onKeyPress Stub.math_evaluate Stub.String' scientific (lit "2+2")
                 (lit "id") 7 key w in
  (press (lit "7") = addToExpression (lit "7") w
   /\ press (lit "^") = addToExpression (lit "^") w)
  /\ press (lit "Shift") = (Normal tt, w)
  /\ press (lit "a") = (Normal tt, w).
Proof.
  assert (Hsci : scientific <> ai) by discriminate.
  destruct (proj2 (onKeyPress_routing Stub.math_evaluate Stub.String'
                     scientific (lit "2+2") (lit "id") 7
                     (Stub.world scientific (lit "2+2"))) Hsci)
    as (Hdigit & Hop & _ & _ & _ & Hother).
  cbv zeta. split; [split | split].
  - apply (Hdigit 55%N). lia.
  - apply Hop. cbn. tauto.
  - apply Hother; try discriminate.
    + intros c rest E. injection E as <- _. lia.
    + cbn. intros [E | [E | [E | [E | [E | [E | [E | [E | []]]]]]]]];
        discriminate.
  - apply Hother; try discriminate.
    + intros c rest E. injection E as <- _. lia.
    + cbn. intros [E | [E | [E | [E | [E | [E | [E | [E | []]]]]]]]];
        discriminate.
Defined.

Section Keypad.

Variable value : Type.
Variable math_evaluate : jsstring -> Completion value.
Variable String' : value -> jsstring.

Lemma onKeyPress_Enter (mode : CalcMode) (expression uuid : jsstring)
      (now : Z) (w : World) :
  mode <> ai ->
  exec (onKeyPress math_evaluate String' mode expression uuid now (lit "Enter")) w
  = exec (calculate math_evaluate String' expression uuid now) w.
Proof.
  intro H. unfold exec, onKeyPress. rewrite (mode_eqb_ai H).
  cbn -[calculate]. unfold bind, when, ret.
  now destruct (calculate math_evaluate String' expression uuid now w)
    as [[[] | e] w'].
Qed.

(** Outside the AI mode every button of the standard keypad has its key:
    pressing the key whose name is the button's token does what a click
    on the button does, and Enter does what a click on "=" does. *)
Theorem keypad_has_keys (w : World) (uuid : jsstring) (now : Z) :
  State.mode (app w) <> ai ->
  (forall val : jsstring,
      In val standard_tokens ->
      dispatch math_evaluate String' w (KeyDown val uuid now)
      = dispatch math_evaluate String' w (ClickToken val))
  /\ dispatch math_evaluate String' w (KeyDown (lit "Enter") uuid now)
     = dispatch math_evaluate String' w (ClickEquals uuid now).
Proof.
  intro H. split.
  - intros val Hin. cbn [dispatch].
    destruct (State.mode (app w)); [| | congruence];
      cbn in Hin;
      repeat (destruct Hin as [<- | Hin]; [reflexivity |]); contradiction.
  - cbn [dispatch]. rewrite (mode_eqb_ai H). now apply onKeyPress_Enter.
Qed.

End Keypad.

Lemma keypad_has_keys_witness :
  let w := Stub.world standard (lit "2+") in
  dispatch Stub.math_evaluate Stub.String' w (KeyDown (lit "2") (lit "id") 7)
  = dispatch Stub.math_evaluate Stub.String' w (ClickToken (lit "2")).
Proof.
  assert (Hstd : State.mode (app (Stub.world standard (lit "2+"))) <> ai)
    by discriminate.
  apply (proj1 (@keypad_has_keys _ Stub.math_evaluate Stub.String'
                  (Stub.world standard (lit "2+")) (lit "id") 7 Hstd)).
  cbn. tauto.
Defined.

(** ** Further properties: the buffer *)

Lemma backspaces_spec (n : nat) (w : World) :
  backspaces n w
  = {| app :=
         {| State.mode := State.mode (app w);
            State.expression := Nat.iter n (@removelast N) (State.expression (app w));
            State.result := State.result (app w);
            State.history := State.history (app w);
            State.isAiLoading := State.isAiLoading (app w);
            State.aiExplain := State.aiExplain (app w) |};
       calls := calls w;
       pending := pending w |}.
Proof.
  revert w. induction n as [| n IH]; intro w.
  - now destruct w as [[] ? ?].
  - cbn [backspaces]. rewrite IH. cbn -[slice Nat.iter].
    rewrite slice_0_m1. do 2 f_equal.
    clear. induction n as [| n IHn]; [reflexivity |].
    cbn [Nat.iter nat_rect] in *. now rewrite <- IHn.
Qed.

Lemma iter_removelast_app (A : Type) (l val : list A) :
  Nat.iter (length val) (@removelast A) (l ++ val) = l.
Proof.
  induction val as [| a val IH] using rev_ind.
  - cbn. apply app_nil_r.
  - rewrite length_app, Nat.add_comm. cbn [length Nat.add].
    assert (E : forall (n : nat) (x : list A),
               Nat.iter (S n) (@removelast A) x
               = Nat.iter n (@removelast A) (removelast x)).
    { clear. intros n x. induction n as [| n IHn]; [reflexivity |].
      cbn [Nat.iter nat_rect] in *. now rewrite IHn. }
    rewrite E, app_assoc, removelast_last. exact IH.
Qed.

(** Backspace undoes an append: after a token was appended, as many
    presses of Backspace as the token has code units give back the world
    there was before. *)
Theorem backspaces_undo_append (w : World) (val : jsstring) :
  backspaces (length val) (exec (addToExpression val) w) = w.
Proof.
  rewrite backspaces_spec. cbn -[Nat.iter].
  rewrite iter_removelast_app. now destruct w as [[] ? ?].
Qed.

(** ** Further properties: the AI path *)

Section Blank.

Variable value : Type.
Variable math_evaluate : jsstring -> Completion value.
Variable String' : value -> jsstring.

(** On a blank buffer (empty or white space only) [handleAiSolve] does
    nothing at all: no call of the solver, no change of the loading flag,
    of the AI response or of the result.  That includes a click on "Ask
    Gemini", which is enabled on a non-empty blank buffer. *)
Theorem handleAiSolve_blank (w : World)
        (solver : jsstring -> Completion AiResponse.t)
        (uuid : jsstring) (now : Z) :
  blank (State.expression (app w)) = true ->
  handleAiSolve solver (State.expression (app w)) uuid now w = (Normal tt, w)
  /\ dispatch math_evaluate String' w ClickAskGemini = w.
Proof.
  intro B.
  assert (T : truthy (trim (State.expression (app w))) = false)
    by (now rewrite truthy_trim, B).
  split.
  - unfold handleAiSolve, handleAiSolve_await. now rewrite T.
  - cbn [dispatch]. unfold exec, handleAiSolve_await. rewrite T.
    now destruct (_ && _).
Qed.

End Blank.

Lemma handleAiSolve_blank_witness :
  let w := Stub.world ai (lit "  ") in
  handleAiSolve (fun _ => Normal geminiService.fallback) (lit "  ")
                (lit "id") 7 w
  = (Normal tt, w)
  /\ dispatch Stub.math_evaluate Stub.String' w ClickAskGemini = w.
Proof.
  apply (@handleAiSolve_blank _ Stub.math_evaluate Stub.String'
           (Stub.world ai (lit "  "))
           (fun _ => Normal geminiService.fallback) (lit "id") 7).
  reflexivity.
Defined.

(** ** Further properties: invariants of a session *)

Lemma keeps_ret (I : World -> Prop) (A : Type) (a : A) : keeps I (ret a).
Proof. intros w H. exact H. Qed.

Lemma keeps_bind (I : World -> Prop) (A B : Type) (m : M A) (k : A -> M B) :
  keeps I m -> (forall a, keeps I (k a)) -> keeps I (bind m k).
Proof.
  intros Hm Hk w H. specialize (Hm w H). unfold exec, bind in *.
  destruct (m w) as [[a | e] w']; cbn in *; [now apply Hk | exact Hm].
Qed.

Lemma keeps_try_catch (I : World -> Prop) (A : Type) (body : M A)
      (handler : exn -> M A) :
  keeps I body -> (forall e, keeps I (handler e)) ->
  keeps I (try_catch body handler).
Proof.
  intros Hb Hh w H. specialize (Hb w H). unfold exec, try_catch in *.
  destruct (body w) as [[a | e] w']; cbn in *; [exact Hb | now apply Hh].
Qed.

Lemma keeps_try_finally (I : World -> Prop) (A : Type) (body : M A)
      (final : M unit) :
  keeps I body -> keeps I final -> keeps I (try_finally body final).
Proof.
  intros Hb Hf w H. specialize (Hb w H). unfold exec, try_finally in *.
  destruct (body w) as [c w']; cbn in *. specialize (Hf w' Hb).
  unfold exec in Hf. destruct (final w') as [[u | e] w'']; exact Hf.
Qed.

Lemma keeps_when (I : World -> Prop) (b : bool) (stmt : M unit) :
  keeps I stmt -> keeps I (when b stmt).
Proof. destruct b; [trivial | intros _; apply keeps_ret]. Qed.

Section Invariants.

Variable value : Type.
Variable math_evaluate : jsstring -> Completion value.
Variable String' : value -> jsstring.

(** A property every event keeps holds all along a session. *)
Lemma run_keeps (I : World -> Prop) :
  (forall w ev, I w -> I (dispatch math_evaluate String' w ev)) ->
  forall trace w, I w -> I (run math_evaluate String' w trace).
Proof.
  intros step trace. induction trace as [| ev trace IH]; intros w H;
    [exact H |].
  cbn [run fold_left]. apply IH. now apply step.
Qed.

(** The handlers that touch neither the loading flag nor the promises. *)
Lemma keeps_single_flight_calculate expression uuid now :
  keeps single_flight (calculate math_evaluate String' expression uuid now).
Proof.
  unfold calculate. destruct (negb (truthy expression));
    [apply keeps_ret |].
  apply keeps_try_catch; [| intros e w H; exact H].
  apply keeps_bind; [intros w H; exact H | intro res].
  apply keeps_bind; intros; intros w H; exact H.
Qed.

Lemma keeps_single_flight_onKeyPress mode expression uuid now key :
  keeps single_flight
        (onKeyPress math_evaluate String' mode expression uuid now key).
Proof.
  unfold onKeyPress. destruct (mode_eqb mode ai); [apply keeps_ret |].
  repeat (apply keeps_bind; [apply keeps_when | intros _]);
    try apply keeps_when;
    try apply keeps_single_flight_calculate;
    intros w H; exact H.
Qed.

Lemma dispatch_single_flight (w : World) (ev : Event) :
  single_flight w -> single_flight (dispatch math_evaluate String' w ev).
Proof.
  intro H. destruct ev; cbn [dispatch].
  - exact H.
  - destruct (mode_eqb _ ai); exact H.
  - destruct (_ && _); exact H.
  - destruct (mode_eqb _ ai);
      [exact H | now apply keeps_single_flight_calculate].
  - now apply keeps_single_flight_onKeyPress.
  - destruct (mode_eqb _ ai); exact H.
  - destruct (mode_eqb _ ai); [| exact H]. cbn [andb].
    destruct (State.isAiLoading (app w)) eqn:L; [exact H |]. cbn [orb].
    destruct (negb (negb (truthy (State.expression (app w)))));
      [| exact H].
    destruct H as [[P _] | [q [_ L']]]; [| congruence].
    unfold exec, handleAiSolve_await.
    destruct (negb (truthy (trim (State.expression (app w)))));
      [left; now split |].
    right. exists (State.expression (app w)). cbn. now rewrite P.
  - destruct (nth_error (pending w) i) as [captured |] eqn:E; [| exact H].
    left. destruct H as [[P _] | [q [P _]]].
    + rewrite P in E. now destruct i.
    + rewrite P in E. destruct i as [| i]; [| now destruct i].
      destruct settled; cbn; now rewrite P.
  - destruct (nth_error _ i); exact H.
  - exact H.
Qed.

(** At any moment of any session at most one AI request is in flight,
    and the loading flag is up exactly while there is one. *)
Theorem one_request_in_flight (trace : list Event) :
  let w := run math_evaluate String' initial trace in
  (length (pending w) <= 1)%nat
  /\ (State.isAiLoading (app w) = true <-> pending w <> []).
Proof.
  cbv zeta.
  assert (H : single_flight (run math_evaluate String' initial trace)).
  { apply run_keeps; [apply dispatch_single_flight |]. left. now split. }
  destruct H as [[P L] | [q [P L]]]; rewrite P, L; cbn; split;
    try lia; split; congruence.
Qed.

End Invariants.

Lemma Forall_firstn_of (A : Type) (P : A -> Prop) (n : nat) (l : list A) :
  Forall P l -> Forall P (firstn n l).
Proof.
  intro H. revert n. induction H as [| a l Ha _ IH]; intros [| n]; cbn;
    constructor; auto.
Qed.

Lemma Forall_skipn_of (A : Type) (P : A -> Prop) (n : nat) (l : list A) :
  Forall P l -> Forall P (skipn n l).
Proof.
  intro H. revert n. induction H as [| a l Ha Hl IH]; intros [| n]; cbn;
    auto.
Qed.

Lemma keeps_ledger_wf_record (r : CalculationRecord.t) :
  wf_record r ->
  keeps ledger_wf (setHistory (Updater (fun prev => slice (r :: prev) 0 50))).
Proof.
  intros Hr w [Hh Hp]. split; [| exact Hp].
  cbn -[slice]. rewrite slice_0_50. apply Forall_firstn_of. now constructor.
Qed.

Section Ledger_shape.

Variable value : Type.
Variable math_evaluate : jsstring -> Completion value.
Variable String' : value -> jsstring.

Lemma keeps_ledger_wf_calculate expression uuid now :
  keeps ledger_wf (calculate math_evaluate String' expression uuid now).
Proof.
  unfold calculate. destruct (truthy expression) eqn:T;
    [| apply keeps_ret]. cbn [negb].
  apply keeps_try_catch; [| intros e w H; exact H].
  apply keeps_bind; [intros w H; exact H | intro res].
  apply keeps_bind; [intros w H; exact H | intros _].
  apply keeps_ledger_wf_record. left. cbn. repeat split.
  intros ->. discriminate.
Qed.

Lemma keeps_ledger_wf_resume captured uuid now settled :
  blank captured = false ->
  keeps ledger_wf (handleAiSolve_resume captured uuid now settled).
Proof.
  intro B. unfold handleAiSolve_resume.
  apply keeps_try_finally; [| intros w H; exact H].
  apply keeps_try_catch; [| intros e w H; exact H].
  apply keeps_bind; [intros w H; exact H | intro aiRes].
  apply keeps_bind; [intros w H; exact H | intros _].
  apply keeps_bind; [intros w H; exact H | intros _].
  apply keeps_ledger_wf_record. right. cbn. repeat split; [| exact B].
  now eexists.
Qed.

Lemma keeps_ledger_wf_onKeyPress mode expression uuid now key :
  keeps ledger_wf
        (onKeyPress math_evaluate String' mode expression uuid now key).
Proof.
  unfold onKeyPress. destruct (mode_eqb mode ai); [apply keeps_ret |].
  repeat (apply keeps_bind; [apply keeps_when | intros _]);
    try apply keeps_when;
    try apply keeps_ledger_wf_calculate;
    intros w H; exact H.
Qed.

Lemma dispatch_ledger_wf (w : World) (ev : Event) :
  ledger_wf w -> ledger_wf (dispatch math_evaluate String' w ev).
Proof.
  intro H. destruct ev; cbn [dispatch].
  - exact H.
  - destruct (mode_eqb _ ai); exact H.
  - destruct (_ && _); exact H.
  - destruct (mode_eqb _ ai);
      [exact H | now apply keeps_ledger_wf_calculate].
  - now apply keeps_ledger_wf_onKeyPress.
  - destruct (mode_eqb _ ai); exact H.
  - destruct (_ && _); [| exact H].
    unfold exec, handleAiSolve_await.
    destruct (truthy (trim (State.expression (app w)))) eqn:T;
      [| exact H]. cbn.
    destruct H as [Hh Hp]. split; [exact Hh |].
    apply Forall_app. split; [exact Hp |]. constructor; [| constructor].
    rewrite truthy_trim in T. now destruct (blank _).
  - destruct (nth_error (pending w) i) as [captured |] eqn:E; [| exact H].
    destruct H as [Hh Hp].
    apply keeps_ledger_wf_resume.
    + apply nth_error_In in E.
      now apply (proj1 (Forall_forall _ _) Hp).
    + split; [exact Hh |].
      apply (proj2 (Forall_app _ (firstn i (pending w))
                               (skipn (S i) (pending w)))).
      split; [now apply Forall_firstn_of | now apply Forall_skipn_of].
  - destruct (nth_error _ i); exact H.
  - destruct H as [_ Hp]. split; [constructor | exact Hp].
Qed.

(** At any moment of any session every record of the ledger is either a
    plain one (no AI flag, no explanation, a non-empty expression) or an
    AI one (AI flag true, an explanation, an expression that is not
    blank): [isAi] is never [false], and no record has an empty
    expression. *)
Theorem ledger_records_wf (trace : list Event) :
  Forall wf_record
         (State.history (app (run math_evaluate String' initial trace))).
Proof.
  apply (@run_keeps _ math_evaluate String' ledger_wf dispatch_ledger_wf
                    trace initial).
  split; constructor.
Qed.

End Ledger_shape.

(** ** Further properties: how the ledger changes *)

Lemma ledger_step_refl h : ledger_step h h.
Proof. now left. Qed.

Section Ledger_rel.

Variable R : list CalculationRecord.t -> list CalculationRecord.t -> Prop.
Hypothesis R_refl : forall h, R h h.

Lemma ledger_rel_eq_R (A : Type) (m : M A) : ledger_rel eq m -> ledger_rel R m.
Proof. intros H w. rewrite <- (H w). apply R_refl. Qed.

Lemma ledger_rel_bind_l (A B : Type) (m : M A) (k : A -> M B) :
  ledger_rel eq m -> (forall a, ledger_rel R (k a)) -> ledger_rel R (bind m k).
Proof.
  intros Hm Hk w. specialize (Hm w). unfold exec, bind in *.
  destruct (m w) as [[a | e] w']; cbn in *; rewrite Hm;
    [apply Hk | apply R_refl].
Qed.

Lemma ledger_rel_bind_r (A B : Type) (m : M A) (k : A -> M B) :
  ledger_rel R m -> (forall a, ledger_rel eq (k a)) -> ledger_rel R (bind m k).
Proof.
  intros Hm Hk w. specialize (Hm w). unfold exec, bind in *.
  destruct (m w) as [[a | e] w']; cbn in *; [| exact Hm].
  pose proof (Hk a w') as E. unfold exec in E. now rewrite <- E.
Qed.

Lemma ledger_rel_try_catch (A : Type) (body : M A) (handler : exn -> M A) :
  ledger_rel R body -> (forall e, ledger_rel eq (handler e)) ->
  ledger_rel R (try_catch body handler).
Proof.
  intros Hb Hh w. specialize (Hb w). unfold exec, try_catch in *.
  destruct (body w) as [[a | e] w']; cbn in *; [exact Hb |].
  pose proof (Hh e w') as E. unfold exec in E. now rewrite <- E.
Qed.

Lemma ledger_rel_try_finally (A : Type) (body : M A) (final : M unit) :
  ledger_rel R body -> ledger_rel eq final ->
  ledger_rel R (try_finally body final).
Proof.
  intros Hb Hf w. specialize (Hb w). specialize (Hf (exec body w)).
  unfold exec, try_finally in *.
  destruct (body w) as [c w']; cbn in *.
  destruct (final w') as [[u | e] w'']; cbn in *; now rewrite <- Hf.
Qed.

Lemma ledger_rel_when (b : bool) (stmt : M unit) :
  ledger_rel R stmt -> ledger_rel R (when b stmt).
Proof. destruct b; [trivial | intros _ w; apply R_refl]. Qed.

End Ledger_rel.

Lemma ledger_rel_record (r : CalculationRecord.t) :
  ledger_rel ledger_step
             (setHistory (Updater (fun prev => slice (r :: prev) 0 50))).
Proof.
  intro w. right. right. exists r. cbn -[slice firstn]. apply slice_0_50.
Qed.

Section Ledger_steps.

Variable value : Type.
Variable math_evaluate : jsstring -> Completion value.
Variable String' : value -> jsstring.

Lemma ledger_rel_calculate expression uuid now :
  ledger_rel ledger_step (calculate math_evaluate String' expression uuid now).
Proof.
  unfold calculate. destruct (negb (truthy expression));
    [intro w; apply ledger_step_refl |].
  apply ledger_rel_try_catch; [| intros e w; reflexivity].
  apply (ledger_rel_bind_l ledger_step_refl); [intro w; reflexivity |].
  intro res.
  apply (ledger_rel_bind_l ledger_step_refl); [intro w; reflexivity |].
  intros _. apply ledger_rel_record.
Qed.

Lemma ledger_rel_resume captured uuid now settled :
  ledger_rel ledger_step (handleAiSolve_resume captured uuid now settled).
Proof.
  unfold handleAiSolve_resume.
  apply ledger_rel_try_finally; [| intro w; reflexivity].
  apply ledger_rel_try_catch; [| intros e w; reflexivity].
  apply (ledger_rel_bind_l ledger_step_refl); [intro w; reflexivity |].
  intro aiRes.
  apply (ledger_rel_bind_l ledger_step_refl); [intro w; reflexivity |].
  intros _.
  apply (ledger_rel_bind_l ledger_step_refl); [intro w; reflexivity |].
  intros _. apply ledger_rel_record.
Qed.

Lemma ledger_rel_onKeyPress mode expression uuid now key :
  ledger_rel ledger_step
             (onKeyPress math_evaluate String' mode expression uuid now key).
Proof.
  unfold onKeyPress. destruct (mode_eqb mode ai);
    [intro w; apply ledger_step_refl |].
  apply (ledger_rel_bind_l ledger_step_refl);
    [destruct (_ && _); intro w; reflexivity | intros _].
  apply (ledger_rel_bind_l ledger_step_refl);
    [destruct (includes _ _); intro w; reflexivity | intros _].
  apply ledger_rel_bind_r;
    [apply (ledger_rel_when ledger_step_refl), ledger_rel_calculate |].
  intros _ w.
  destruct (str_eqb key (lit "Backspace")), (str_eqb key (lit "Escape"));
    reflexivity.
Qed.

(** One event changes the ledger in one of three ways only: it leaves it
    as it is, it empties it, or it puts one new record at the head and
    keeps the first fifty.  So a record, once in the ledger, is never
    altered or moved past another; it only leaves at the end of the
    ledger or when the ledger is cleared. *)
Theorem ledger_changes_by_steps (w : World) (ev : Event) :
  let h := State.history (app w) in
  let h' := State.history (app (dispatch math_evaluate String' w ev)) in
  h' = h \/ h' = [] \/ exists r, h' = firstn 50 (r :: h).
Proof.
  cbv zeta. change (ledger_step (State.history (app w))
    (State.history (app (dispatch math_evaluate String' w ev)))).
  destruct ev; cbn [dispatch]; try apply ledger_step_refl.
  - destruct (mode_eqb _ ai); apply ledger_step_refl.
  - destruct (_ && _); apply ledger_step_refl.
  - destruct (mode_eqb _ ai);
      [apply ledger_step_refl | apply ledger_rel_calculate].
  - apply ledger_rel_onKeyPress.
  - destruct (mode_eqb _ ai); apply ledger_step_refl.
  - destruct (_ && _); [| apply ledger_step_refl].
    unfold exec, handleAiSolve_await.
    destruct (negb (truthy (trim _))); apply ledger_step_refl.
  - destruct (nth_error (pending w) i) as [captured |];
      [| apply ledger_step_refl].
    apply (ledger_rel_resume captured uuid now settled (settle i w)).
  - destruct (nth_error _ i); apply ledger_step_refl.
  - right. now left.
Qed.

End Ledger_steps.

(** ** Further properties: what [calculate] leaves alone *)

Section Calculate_frame.

Variable value : Type.
Variable math_evaluate : jsstring -> Completion value.
Variable String' : value -> jsstring.

(** Whatever the buffer and whatever the evaluator does, [calculate]
    ends normally, calls the evaluator at most once (with the buffer as
    it is), and changes neither the mode, the buffer, the loading flag,
    the AI response nor the requests in flight. *)
Theorem calculate_frame (w : World) (expression uuid : jsstring) (now : Z) :
  let w' := exec (calculate math_evaluate String' expression uuid now) w in
  completion (calculate math_evaluate String' expression uuid now) w
  = Normal tt
  /\ State.mode (app w') = State.mode (app w)
  /\ State.expression (app w') = State.expression (app w)
  /\ State.isAiLoading (app w') = State.isAiLoading (app w)
  /\ State.aiExplain (app w') = State.aiExplain (app w)
  /\ pending w' = pending w
  /\ (calls w' = calls w \/ calls w' = calls w ++ [Evaluate expression]).
Proof.
  cbv zeta. unfold exec, completion.
  destruct expression as [| c s] eqn:E.
  - rewrite (@calculate_empty _ math_evaluate String' w uuid now [] eq_refl).
    cbn. tauto.
  - assert (Hne : c :: s <> []) by discriminate.
    destruct (math_evaluate (c :: s)) as [v | e] eqn:Hev.
    + rewrite (@calculate_normal _ math_evaluate String' w uuid now
                                 (c :: s) v Hne Hev).
      cbn. tauto.
    + rewrite (@calculate_throw _ math_evaluate String' w uuid now
                                (c :: s) e Hne Hev).
      cbn. tauto.
Qed.

(** Replaying a record gives back what was calculated: after "=" on a
    buffer the evaluator accepts, AC, and a click on the newest history
    item, the buffer and the result are those of the calculation, and
    the ledger is the one the calculation left. *)
Theorem replay_restores (w : World) (uuid : jsstring) (now : Z) (v : value) :
  State.mode (app w) <> ai ->
  State.expression (app w) <> [] ->
  math_evaluate (State.expression (app w)) = Normal v ->
  let w1 := dispatch math_evaluate String' w (ClickEquals uuid now) in
  let w3 :=
    run math_evaluate String' w
        [ClickEquals uuid now; ClickAC; ClickHistoryItem 0] in
  State.expression (app w3) = State.expression (app w)
  /\ State.result (app w3) = String' v
  /\ State.result (app w3) = State.result (app w1)
  /\ State.history (app w3) = State.history (app w1).
Proof.
  intros Hm Hne Hev. cbv zeta. unfold run. cbn [fold_left].
  assert (E1 : dispatch math_evaluate String' w (ClickEquals uuid now)
               = snd (calculate math_evaluate String'
                                (State.expression (app w)) uuid now w)).
  { cbn [dispatch]. now rewrite (mode_eqb_ai Hm). }
  rewrite E1.
  rewrite (@calculate_normal _ math_evaluate String' w uuid now _ v Hne Hev).
  cbn [snd]. cbn [dispatch app State.mode]. rewrite (mode_eqb_ai Hm).
  change 50%nat with (S 49). rewrite firstn_cons.
  cbn. repeat split.
Qed.

End Calculate_frame.

Lemma replay_restores_witness :
  let w := Stub.world standard (lit "2+2") in
  let w3 :=
    run Stub.math_evaluate Stub.String' w
        [ClickEquals (lit "id") 7; ClickAC; ClickHistoryItem 0] in
  State.expression (app w3) = lit "2+2"
  /\ State.result (app w3) = lit "4".
Proof.
  assert (Hm : State.mode (app (Stub.world standard (lit "2+2"))) <> ai)
    by discriminate.
  assert (Hne : State.expression (app (Stub.world standard (lit "2+2"))) <> [])
    by discriminate.
  destruct (@replay_restores _ Stub.math_evaluate Stub.String'
              (Stub.world standard (lit "2+2")) (lit "id") 7 (lit "4")
              Hm Hne eq_refl) as (He & Hr & _).
  split; [exact He | exact Hr].
Defined.

(** ** Further properties: what the solver hands to the component *)


Lemma blank_false_truthy (s : jsstring) : blank s = false -> truthy s = true.
Proof. destruct s; [discriminate | reflexivity]. Qed.

Section Solver_answers.

Import geminiService.

Variable generateContent :
  GenerateContentParameters -> Completion GenerateContentResponse.
Variable JSON_parse : jsstring -> Completion parsed.



End Solver_answers.


(** ** Further properties: an answer that arrives late *)

Section Late_answer.

Variable value : Type.
Variable math_evaluate : jsstring -> Completion value.
Variable String' : value -> jsstring.

(** A request is not cancelled by a mode switch.  From an idle AI mode
    with a buffer that is not blank: after "Ask Gemini" and a click on
    the tab of any mode the loading flag is still up; when the answer
    then arrives, it becomes the result and the AI response of the mode
    the user has moved to, and the record put at the head of the ledger
    holds the buffer as it was when the question was asked, although the
    buffer is empty by now. *)
Theorem late_answer_lands (w : World) (m : CalcMode)
        (aiRes : AiResponse.t) (uuid : jsstring) (now : Z) :
  State.mode (app w) = ai ->
  State.isAiLoading (app w) = false ->
  pending w = [] ->
  blank (State.expression (app w)) = false ->
  let asked := State.expression (app w) in
  let w2 := run math_evaluate String' w [ClickAskGemini; ClickMode m] in
  let w3 :=
    run math_evaluate String' w
        [ClickAskGemini; ClickMode m; AiSettled 0 (Normal aiRes) uuid now] in
  (State.isAiLoading (app w2) = true /\ pending w2 = [asked])
  /\ State.mode (app w3) = m
  /\ State.expression (app w3) = []
  /\ State.result (app w3) = AiResponse.answer aiRes
  /\ State.aiExplain (app w3) = Some aiRes
  /\ State.isAiLoading (app w3) = false
  /\ pending w3 = []
  /\ State.history (app w3)
     = {| CalculationRecord.id := uuid;
          CalculationRecord.expression := asked;
          CalculationRecord.result := AiResponse.answer aiRes;
          CalculationRecord.timestamp := now;
          CalculationRecord.isAi := Some true;
          CalculationRecord.explanation :=
            Some (AiResponse.explanation aiRes) |}
        :: firstn 49 (State.history (app w)).
Proof.
  intros Hm Hl Hp Hb. cbv zeta.
  assert (T : truthy (trim (State.expression (app w))) = true)
    by (now rewrite truthy_trim, Hb).
  assert (E1 : dispatch math_evaluate String' w ClickAskGemini
               = {| app :=
                      {| State.mode := ai;
                         State.expression := State.expression (app w);
                         State.result := State.result (app w);
                         State.history := State.history (app w);
                         State.isAiLoading := true;
                         State.aiExplain := None |};
                    calls := calls w ++ [Solve (State.expression (app w))];
                    pending := [State.expression (app w)] |}).
  { cbn [dispatch]. rewrite Hm, Hl, (blank_false_truthy _ Hb).
    cbn [mode_eqb orb negb andb]. unfold exec, handleAiSolve_await.
    rewrite T. cbn. now rewrite Hm, Hp. }
  unfold run. cbn [fold_left]. rewrite E1.
  split; [split; reflexivity |].
  cbn -[firstn slice]. rewrite slice_0_50.
  change 50%nat with (S 49). rewrite firstn_cons. repeat split.
Qed.

End Late_answer.

Lemma late_answer_lands_witness :
  let w3 :=
    run Stub.math_evaluate Stub.String' (Stub.world ai (lit "1+1"))
        [ClickAskGemini; ClickMode standard;
         AiSettled 0 (Normal geminiService.fallback) (lit "id") 7] in
  State.mode (app w3) = standard
  /\ State.expression (app w3) = []
  /\ State.result (app w3) = lit "Error".
Proof.
  destruct (@late_answer_lands _ Stub.math_evaluate Stub.String'
              (Stub.world ai (lit "1+1")) standard geminiService.fallback
              (lit "id") 7 eq_refl eq_refl eq_refl eq_refl)
    as (_ & H1 & H2 & H3 & _).
  split; [exact H1 | split; [exact H2 | exact H3]].
Defined.
